(** * nn-toolbox: batch sample mining, regularizer and averaging callbacks,
      and the supervised image learner's per-batch step

    A shallow embedding of
      - [nntoolbox/vision/utils/selector.py]  (module [Selector]),
      - [nntoolbox/callbacks/regularization.py] (module [Regularization]),
      - [nntoolbox/callbacks/swa.py] (module [SWA]),
      - [nntoolbox/vision/learner/supervised.py] (module [Learner]).

    Python exceptions are modelled by the [result] type; NumPy arrays of
    index rows are lists of tuples; Python dicts are [gmap]s with string
    keys; tensors whose numeric content is produced by opaque collaborators
    are kept abstract. *)

From Stdlib Require Import ZArith List Lia Bool.
From stdpp Require Import base list gmap strings.

Local Open Scope Z_scope.
Local Open Scope nat_scope.

(** ** Exceptions *)

Inductive exn : Set :=
| IndexError
| KeyError
| AssertionError
| ZeroDivisionError
| RuntimeError.

Inductive result (A : Type) : Type :=
| Ok (a : A)
| Raise (e : exn).
Arguments Ok {A} a.
Arguments Raise {A} e.

#[global] Instance result_ret : MRet result := fun A a => Ok a.
#[global] Instance result_bind : MBind result := fun A B k r =>
  match r with
  | Ok a => k a
  | Raise e => Raise e
  end.
#[global] Instance result_fmap : FMap result := fun A B f r =>
  match r with
  | Ok a => Ok (f a)
  | Raise e => Raise e
  end.

(** [for x in xs: ys.append(f(x))] where [f] may raise. *)
Fixpoint traverse {A B : Type} (f : A → result B) (xs : list A) : result (list B) :=
  match xs with
  | [] => Ok []
  | x :: xs' => y ← f x; ys ← traverse f xs'; Ok (y :: ys)
  end.

(** ** selector.py *)

Module Selector.

(** A row of a two-column index array, and a row of a triplet array. *)
Definition pair : Type := nat * nat.
Definition triplet : Type := nat * nat * nat.

(** [x.astype(np.uint8)] on a non-negative integer: NumPy's unsafe cast
    keeps the low eight bits. *)
Definition uint8 (i : nat) : nat := i mod 256.

Definition astype_uint8 (rows : list pair) : list pair :=
  (λ r, (uint8 r.1, uint8 r.2)) <$> rows.

(** [list(combinations(range(n), 2))]: lexicographic order. *)
Definition combinations2 (n : nat) : list pair :=
  i ← seq 0 n; (λ j, (i, j)) <$> seq (S i) (n - S i).

(** [np.array(rows)[:, k]] for an array built from a Python list of rows.
    An empty list gives the one-dimensional array [array([])], and slicing
    it with two indices raises IndexError. *)
Definition column {R : Type} (proj : R → nat) (rows : list R) : result (list nat) :=
  match rows with
  | [] => Raise IndexError
  | _ => Ok (proj <$> rows)
  end.

(** [a[idx]] with an integer index array: IndexError out of range. *)
Definition take (a : list Z) (idx : list nat) : result (list Z) :=
  traverse (λ i, match a !! i with Some x => Ok x | None => Raise IndexError end) idx.

(** [rows[mask.astype(np.uint8).nonzero()]]: the rows at the positions
    where the mask is set, in order. *)
Fixpoint compress {R : Type} (mask : list bool) (rows : list R) : list R :=
  match mask, rows with
  | b :: mask', r :: rows' => if b then r :: compress mask' rows' else compress mask' rows'
  | _, _ => []
  end.

Definition get_all_pairs (labels : list Z) : result (list pair * list pair) :=
  let labels_flat := labels in
  let all_pairs := astype_uint8 (combinations2 (length labels_flat)) in
  a0 ← column fst all_pairs;
  l0 ← take labels_flat a0;
  a1 ← column snd all_pairs;
  l1 ← take labels_flat a1;
  let pos_pairs := compress (zip_with Z.eqb l0 l1) all_pairs in
  let neg_pairs := compress (zip_with (λ x y, negb (Z.eqb x y)) l0 l1) all_pairs in
  Ok (pos_pairs, neg_pairs).

Definition get_all_triplets (labels : list Z) : result (list triplet) :=
  '(pos_pairs, neg_pairs) ← get_all_pairs labels;
  Ok (pos ← pos_pairs;
      neg ← neg_pairs;
      if pos.1 =? neg.1 then [(pos.1, pos.2, neg.2)] else []).

(** Reading aids for the statements about the two functions above: the
    label of a row of the batch, and whether the two ends of a pair carry
    the same label. *)
Definition label_at (labels : list Z) (i : nat) : Z := default 0%Z (labels !! i).

Definition same_label (labels : list Z) (p : pair) : bool :=
  Z.eqb (label_at labels p.1) (label_at labels p.2).

Definition anchor (t : triplet) : nat := t.1.1.

(** A distance matrix for five rows: from row 0 the other rows lie at
    the distances 1, 5, 2 and 10. *)
Definition example_dist (i j : nat) : Z :=
  nth j (nth i [[0; 1; 5; 2; 10]; [1; 0; 4; 3; 9]; [5; 4; 0; 7; 6];
                [2; 3; 7; 0; 8]; [10; 9; 6; 8; 0]]%Z []) 0%Z.

(** A batch of 257 rows with the labels 0, 1, ..., 256, all distinct. *)
Definition batch257 : list Z := Z.of_nat <$> seq 0 257.

(** *** Pair selectors *)

(** [PairSelector] is abstract in [get_pairs]; the arrays it returns are
    two-dimensional with two columns (as those of [get_all_pairs] are,
    also when they have no row). *)
Class PairSelector (E : Type) :=
  get_pairs : list E → list Z → result (list pair * list pair).

(** [torch.index_select(embeddings, dim=0, index=...)] by its content: the
    rows at the given positions, an error when a position is out of
    range. *)
Definition index_select {E : Type} (embeddings : list E) (index : list nat)
  : result (list E) :=
  traverse (λ i, match embeddings !! i with
                 | Some e => Ok e
                 | None => Raise IndexError
                 end) index.

Definition ones (n : nat) : list Z := replicate n 1%Z.
Definition zeros (n : nat) : list Z := replicate n 0%Z.

(** Where a tensor lives.  [torch.tensor(a).long()] makes an index tensor
    on the CPU, [.to(device)] moves it and keeps its content. *)
Inductive device : Set := CPU | CUDA.

#[global] Instance device_eq_dec : EqDecision device.
Proof. solve_decision. Defined.

Definition index_tensor : Type := device * list nat.

Definition tensor_long (a : list nat) : index_tensor := (CPU, a).

Definition to_device (d : device) (t : index_tensor) : index_tensor := (d, t.2).

(** [torch.index_select] on embeddings that live on [d]: an index tensor on
    another device is a RuntimeError, whatever it holds; on a CUDA device
    an index out of range is reported as a RuntimeError of the device. *)
Definition index_select_on {E : Type} (d : device) (embeddings : list E)
           (index : index_tensor) : result (list E) :=
  if decide (index.1 = d)
  then match index_select embeddings index.2 with
       | Ok rows => Ok rows
       | Raise e => Raise (match d with CPU => e | CUDA => RuntimeError end)
       end
  else Raise RuntimeError.

(** [d] is [embeddings.device].  The index of the first column of the
    negative pairs is not moved to it: there [.to] is applied to what
    [index_select] returns.  The gathered rows and the labels are on [d]. *)
Definition select {E : Type} `{PairSelector E} (d : device) (embeddings : list E)
           (labels : list Z) : result ((list E * list E) * list Z) :=
  '(pos_pairs, neg_pairs) ← get_pairs embeddings labels;
  first_pos ← index_select_on d embeddings (to_device d (tensor_long (fst <$> pos_pairs)));
  first_neg ← index_select_on d embeddings (tensor_long (fst <$> neg_pairs));
  let first := first_pos ++ first_neg in
  second_pos ← index_select_on d embeddings (to_device d (tensor_long (snd <$> pos_pairs)));
  second_neg ← index_select_on d embeddings (to_device d (tensor_long (snd <$> neg_pairs)));
  let second := second_pos ++ second_neg in
  let labels := ones (length pos_pairs) ++ zeros (length neg_pairs) in
  Ok ((first, second), labels).

#[global] Instance AllPairSelector (E : Type) : PairSelector E :=
  λ _ labels, get_all_pairs labels.

(** *** Batch-hard triplets *)

Section BatchHard.
(** Distances are the entries of the matrix [emb_pairwise_dist] returns
    (that function lives in [nntoolbox/utils] and is a parameter here); only their
    order matters here.  [dle x y] reads [x <= y]. *)
Context {D : Type} (dle : D → D → bool).

(** Position of the first element that no other element beats. *)
Fixpoint arg_best (better : D → D → bool) (best_i : nat) (best : D)
         (i : nat) (ds : list D) : nat :=
  match ds with
  | [] => best_i
  | d :: ds' =>
      if better d best then arg_best better i d (S i) ds'
      else arg_best better best_i best (S i) ds'
  end.

(** [torch.argmax] and [torch.argmin] of a one-dimensional tensor; an
    empty tensor is an error. *)
Definition argmax (ds : list D) : result nat :=
  match ds with
  | [] => Raise RuntimeError
  | d :: ds' => Ok (arg_best (λ x y, negb (dle x y)) 0 d 1 ds')
  end.

Definition argmin (ds : list D) : result nat :=
  match ds with
  | [] => Raise RuntimeError
  | d :: ds' => Ok (arg_best (λ x y, negb (dle y x)) 0 d 1 ds')
  end.

(** [np.where(labels == c)[0]] and [np.where(labels != c)[0]]. *)
Definition where_eq (labels : list Z) (c : Z) : list nat :=
  List.filter (λ i, match labels !! i with Some l => Z.eqb l c | None => false end)
              (seq 0 (length labels)).

Definition where_ne (labels : list Z) (c : Z) : list nat :=
  List.filter (λ i, match labels !! i with Some l => negb (Z.eqb l c) | None => false end)
              (seq 0 (length labels)).

(** [rows[k, 1]]. *)
Definition row_snd (rows : list pair) (k : nat) : result nat :=
  match rows !! k with
  | Some r => Ok r.2
  | None => Raise IndexError
  end.

(** The body of the loop over the anchors of one class. *)
Definition hardest (dist_mat : nat → nat → D) (c_idx other_idx : list nat) (an : nat)
  : result triplet :=
  let pos_pairs := (λ p, (an, p)) <$> List.filter (λ p, negb (p =? an)) c_idx in
  let neg_pairs := (λ n, (an, n)) <$> other_idx in
  p0 ← column fst pos_pairs;
  p1 ← column snd pos_pairs;
  let pos_pair_dist := zip_with dist_mat p0 p1 in
  n0 ← column fst neg_pairs;
  n1 ← column snd neg_pairs;
  let neg_pair_dist := zip_with dist_mat n0 n1 in
  hardest_pos ← argmax pos_pair_dist;
  hardest_neg ← argmin neg_pair_dist;
  p ← row_snd pos_pairs hardest_pos;
  n ← row_snd neg_pairs hardest_neg;
  Ok (an, p, n).

(** What is expected of the triplet of one anchor: the furthest of the
    other members of the class, and the nearest of the rows outside. *)
Definition hardest_of (dist_mat : nat → nat → D) (c_idx other_idx : list nat)
           (an : nat) (t : triplet) : Prop :=
  ∃ p n, t = (an, p, n) ∧ p ∈ c_idx ∧ p ≠ an ∧ n ∈ other_idx ∧
         (∀ q, q ∈ c_idx → q ≠ an → dle (dist_mat an q) (dist_mat an p) = true) ∧
         (∀ m, m ∈ other_idx → dle (dist_mat an n) (dist_mat an m) = true).

(** The body of the loop over the classes. *)
Definition class_triplets (dist_mat : nat → nat → D) (labels : list Z) (c : Z)
  : result (list triplet) :=
  let c_idx := where_eq labels c in
  if length c_idx <? 2 then Ok []
  else
    let other_idx := where_ne labels c in
    if length other_idx <? 1 then Ok []
    else traverse (hardest dist_mat c_idx other_idx) c_idx.

(** The loop, over the classes in a given order. *)
Definition batch_hard_over (unique_class : list Z) (dist_mat : nat → nat → D)
           (labels : list Z) : result (list triplet) :=
  per_class ← traverse (class_triplets dist_mat labels) unique_class;
  Ok (List.concat per_class).

(** [set(labels.ravel())] is iterated in an order Python does not fix;
    the order of first occurrence is taken here, and the statements
    below hold for every order ([batch_hard_over]). *)
Definition get_batch_hard_triplets (dist_mat : nat → nat → D) (labels : list Z)
  : result (list triplet) :=
  batch_hard_over (remove_dups labels) dist_mat labels.

End BatchHard.

End Selector.

(** ** regularization.py *)

Module Regularization.

Section Regularizers.
(** [T]: scalar values (Python floats and zero-dimensional tensors) with
    their addition and multiplication; [P]: the data of a model
    parameter; [A]: what an output hook stores. *)
Context {T P A : Type}.
Context (tadd tmul : T → T → T) (tzero : T).

Record WeightRegularization := {
  wr_loss_name : string;
  wr_regularizer : P → T;
  wr_lambd : T
}.

(** [parameters] is [self.learner._model.parameters()]. *)
Definition weight_after_losses (self : WeightRegularization) (parameters : list P)
           (losses : gmap string T) (train : bool) : result (gmap string T) :=
  match losses !! wr_loss_name self with
  | None => Raise AssertionError
  | Some l =>
      let reg := foldl (λ reg p, tadd reg (wr_regularizer self p)) tzero parameters in
      Ok (<[wr_loss_name self := tadd l (tmul (wr_lambd self) reg)]> losses)
  end.

(** The output hook: [store] is [None] or the activation last seen. *)
Record OutputHook := { store : option A }.

Record ActivationRegularization := {
  ar_hook : OutputHook;
  ar_loss_name : string;
  ar_regularizer : option A → T;
  ar_lambd : T
}.

(** The hook object is mutated, so the callback is returned with the
    losses. *)
Definition activation_after_losses (self : ActivationRegularization)
           (losses : gmap string T) (train : bool)
  : result (gmap string T * ActivationRegularization) :=
  match losses !! ar_loss_name self with
  | None => Raise AssertionError
  | Some l =>
      let losses' :=
        <[ar_loss_name self :=
            tadd l (tmul (ar_regularizer self (store (ar_hook self))) (ar_lambd self))]> losses in
      Ok (losses',
          {| ar_hook := {| store := None |};
             ar_loss_name := ar_loss_name self;
             ar_regularizer := ar_regularizer self;
             ar_lambd := ar_lambd self |})
  end.

End Regularizers.

End Regularization.

(** ** swa.py *)

Module SWA.

(** The constructor asserts [timescale == "epoch" or timescale == "iter"]. *)
Inductive timescale : Set := Epoch | Iter.

#[global] Instance timescale_eq_dec : EqDecision timescale.
Proof. solve_decision. Defined.

Section Averaging.
(** [T]: the data of a parameter, with tensor addition, multiplication
    by a Python integer on the left and division by one on the right. *)
Context {T : Type}.
Context (tadd : T → T → T) (tscale : Z → T → T) (tdiv : T → Z → T).

(** [_model] is given by its [named_parameters()], a sequence of named
    tensors; [model_swa] by the dict of its own named parameters, and by
    the keys of its [state_dict()] that are not among them (persistent
    buffers such as batch-norm statistics, further names of a shared
    parameter). *)
Record StochasticWeightAveraging := {
  _model : list (string * T);
  model_swa : gmap string T;
  other_state_keys : list string;
  _update_every : Z;
  _average_after : Z;
  _timescale : timescale
}.

Definition with_model_swa (self : StochasticWeightAveraging) (m : gmap string T)
  : StochasticWeightAveraging :=
  {| _model := _model self;
     model_swa := m;
     other_state_keys := other_state_keys self;
     _update_every := _update_every self;
     _average_after := _average_after self;
     _timescale := _timescale self |}.

(** [(param1.data + n_model * avg.data) / (n_model + 1)] *)
Definition running_mean (n_model : Z) (param1 avg : T) : T :=
  tdiv (tadd param1 (tscale n_model avg)) (n_model + 1)%Z.

(** The loop over [w1]: [copy_] writes into the parameter objects of
    [model_swa], which [dict_params2] shares with it. *)
Definition average_into (n_model : Z) (w1 : list (string * T))
           (dict_params2 : gmap string T) : gmap string T :=
  foldl (λ d '(name1, param1),
           match d !! name1 with
           | Some avg => <[name1 := running_mean n_model param1 avg]> d
           | None => d
           end) dict_params2 w1.

(** [self.model_swa.load_state_dict(dict_params2)], which is strict: the
    dict holds the averaged model's own parameters, the objects just
    written to, so loading changes no value; it raises when the state dict
    of [model_swa] has a key that the dict lacks. *)
Definition load_state_dict (self : StochasticWeightAveraging) : result unit :=
  match other_state_keys self with
  | [] => Ok ()
  | _ :: _ => Raise RuntimeError
  end.

(** The body both hooks share, for the counter [logs[key]]: how it ends,
    and the callback it leaves behind (also when it raises). *)
Definition update (self : StochasticWeightAveraging) (key : string)
           (logs : gmap string Z) : result unit * StochasticWeightAveraging :=
  match logs !! key with
  | None => (Raise KeyError, self)
  | Some counter =>
      if (counter <? _average_after self)%Z then (Ok (), self)
      else if (_update_every self =? 0)%Z then (Raise ZeroDivisionError, self)
      else if negb (counter `mod` _update_every self =? 0)%Z then (Ok (), self)
      else
        let n_model := ((counter - _average_after self) `div` _update_every self)%Z in
        let self' := with_model_swa self (average_into n_model (_model self) (model_swa self)) in
        (load_state_dict self', self')
  end.

Definition on_epoch_end (self : StochasticWeightAveraging) (logs : gmap string Z)
  : result bool * StochasticWeightAveraging :=
  match _timescale self with
  | Epoch => let '(r, self') := update self "epoch" logs in ((λ _, false) <$> r, self')
  | Iter => (Ok false, self)
  end.

Definition on_batch_end (self : StochasticWeightAveraging) (logs : gmap string Z)
  : result unit * StochasticWeightAveraging :=
  match _timescale self with
  | Iter => update self "iter_cnt" logs
  | Epoch => (Ok (), self)
  end.

Definition get_averaged_model (self : StochasticWeightAveraging) : gmap string T :=
  model_swa self.

(** The hook that belongs to a timescale, by how it ends and the callback
    it leaves behind, and the counter that hook reads. *)
Definition hook_of (ts : timescale) (self : StochasticWeightAveraging)
           (logs : gmap string Z) : result unit * StochasticWeightAveraging :=
  match ts with
  | Epoch => let '(r, self') := on_epoch_end self logs in ((λ _, ()) <$> r, self')
  | Iter => on_batch_end self logs
  end.

Definition counter_of (ts : timescale) : string :=
  match ts with
  | Epoch => "epoch"
  | Iter => "iter_cnt"
  end.

End Averaging.

(** A callback on the iteration timescale that starts averaging at
    iteration 4 and updates every 2 iterations, with integer "tensors";
    the trained model has the parameters w and b, the averaged one w and
    v; and the logs of iteration 8. *)
Definition example_swa : StochasticWeightAveraging (T := Z) :=
  {| _model := [("w", 6%Z); ("b", 1%Z)];
     model_swa := {[ "w" := 3%Z; "v" := 9%Z ]};
     other_state_keys := [];
     _update_every := 2;
     _average_after := 4;
     _timescale := Iter |}.

Definition example_logs : gmap string Z := {[ "iter_cnt" := 8%Z; "epoch" := 0%Z ]}.

(** The same callback for an averaged model with a batch-norm buffer. *)
Definition example_swa_bn : StochasticWeightAveraging (T := Z) :=
  {| _model := _model example_swa;
     model_swa := model_swa example_swa;
     other_state_keys := ["bn.running_mean"];
     _update_every := _update_every example_swa;
     _average_after := _average_after example_swa;
     _timescale := _timescale example_swa |}.

End SWA.

(** ** supervised.py *)

Module Learner.

Inductive device_type : Set := Cpu | Cuda.

Section LearnOneIter.
(** [Tensor]: tensors; [World]: the state of everything the learner
    calls into (callbacks, model, optimizer, autograd, allocator). *)
Context {Tensor World : Type}.

Inductive value : Type :=
| VTensor (t : Tensor)
| VInt (n : Z).

(** The calls [learn_one_iter] makes, in the order it makes them; a
    control dispatch is recorded with what it returned, [on_batch_end]
    with the logs it received. *)
Inductive event : Type :=
| EvOnBatchBegin
| EvTransformData
| EvComputeLoss
| EvAfterLosses
| EvOnBackwardBegin (ret : bool)
| EvBackward
| EvAfterBackward (ret : bool)
| EvOptimizerStep
| EvAfterStep (ret : bool)
| EvZeroGrad
| EvMemoryAllocated
| EvOnBatchEnd (logs : gmap string value).

(** The collaborators, all defined outside [supervised.py] and taken as
    parameters:
    the callback handler's dispatches, the mixup transformer, the loss
    ([compute_loss] delegates to the base class, with the criterion swapped
    under mixup), autograd, the optimizer and the CUDA allocator. *)
Record collaborators := {
  cb_on_batch_begin : gmap string Tensor → bool → World → gmap string Tensor * World;
  transform_data : Tensor → Tensor → World → (Tensor * Tensor) * World;
  compute_loss : Tensor → Tensor → bool → World → Tensor * World;
  cb_after_losses : gmap string Tensor → bool → World → gmap string Tensor * World;
  cb_on_backward_begin : World → bool * World;
  backward : Tensor → World → World;
  cb_after_backward : World → bool * World;
  optimizer_step : World → World;
  cb_after_step : World → bool * World;
  optimizer_zero_grad : World → World;
  memory_allocated : World → Z;
  cpu : Tensor → Tensor;
  cb_on_batch_end : gmap string value → World → World
}.

Record learner := {
  _collab : collaborators;
  _device : device_type;
  _mixup : bool
}.

(** A computation over the world that logs its calls and may raise. *)
Definition prog (R : Type) : Type := World * list event → result R * (World * list event).

Definition pret {R : Type} (r : R) : prog R := λ s, (Ok r, s).
Definition pbind {R R' : Type} (m : prog R) (k : R → prog R') : prog R' :=
  λ s, match m s with
       | (Ok r, s') => k r s'
       | (Raise e, s') => (Raise e, s')
       end.
Definition praise {R : Type} (e : exn) : prog R := λ s, (Raise e, s).

(** Call a collaborator that returns a value, logging [ev] of it. *)
Definition call {R : Type} (f : World → R * World) (ev : R → event) : prog R :=
  λ '(w, tr), let '(r, w') := f w in (Ok r, (w', tr ++ [ev r])).
(** Call a collaborator for its effect only. *)
Definition exec (f : World → World) (ev : event) : prog unit :=
  λ '(w, tr), (Ok (), (f w, tr ++ [ev])).
(** [d[key]] *)
Definition getitem {V : Type} (d : gmap string V) (key : string) : prog V :=
  match d !! key with
  | Some v => pret v
  | None => praise KeyError
  end.
Definition when (b : bool) (m : prog unit) : prog unit :=
  if b then m else pret ().

Notation "x ←← m ;; k" := (pbind m (λ x, k))
  (at level 100, m at next level, right associativity).
Notation "m ;;; k" := (pbind m (λ _, k))
  (at level 100, right associativity).

Definition learn_one_iter (self : learner) (images labels : Tensor) : prog unit :=
  let c := _collab self in
  data ←← call (cb_on_batch_begin c {[ "inputs" := images; "labels" := labels ]} true)
               (λ _, EvOnBatchBegin) ;;
  images ←← getitem data "inputs" ;;
  labels ←← getitem data "labels" ;;
  il ←← (if _mixup self
         then call (transform_data c images labels) (λ _, EvTransformData)
         else pret (images, labels)) ;;
  let '(images, labels) := il in
  raw ←← call (compute_loss c images labels true) (λ _, EvComputeLoss) ;;
  losses ←← call (cb_after_losses c {[ "loss" := raw ]} true) (λ _, EvAfterLosses) ;;
  loss ←← getitem losses "loss" ;;
  do_backward ←← call (cb_on_backward_begin c) EvOnBackwardBegin ;;
  when do_backward (exec (backward c loss) EvBackward) ;;;
  do_step ←← call (cb_after_backward c) EvAfterBackward ;;
  when do_step (
    exec (optimizer_step c) EvOptimizerStep ;;;
    do_zero ←← call (cb_after_step c) EvAfterStep ;;
    when do_zero (exec (optimizer_zero_grad c) EvZeroGrad) ;;;
    match _device self with
    | Cuda =>
        mem ←← call (λ w, (memory_allocated c w, w)) (λ _, EvMemoryAllocated) ;;
        exec (cb_on_batch_end c {[ "loss" := VTensor (cpu c loss);
                                   "allocated_memory" := VInt mem ]})
             (EvOnBatchEnd {[ "loss" := VTensor (cpu c loss);
                              "allocated_memory" := VInt mem ]})
    | Cpu =>
        exec (cb_on_batch_end c {[ "loss" := VTensor loss ]})
             (EvOnBatchEnd {[ "loss" := VTensor loss ]})
    end).

(** The calls made by one run from the world [w]. *)
Definition calls (self : learner) (images labels : Tensor) (w : World) : list event :=
  (learn_one_iter self images labels (w, [])).2.2.

Definition is_on_batch_end (ev : event) : bool :=
  match ev with
  | EvOnBatchEnd _ => true
  | _ => false
  end.

(** The shape of the calls of a run, for reading the statements below:
    the calls up to the loss, and the calls from the first gate on when
    the three control dispatches answer [b1], [b2] and (if asked) [b3],
    the loss is [loss] and the allocator reports [mem]. *)
Definition calls_to_loss (self : learner) : list event :=
  [EvOnBatchBegin] ++ (if _mixup self then [EvTransformData] else [])
    ++ [EvComputeLoss; EvAfterLosses].

Definition calls_batch_end (self : learner) (loss : Tensor) (mem : Z) : list event :=
  match _device self with
  | Cuda => [EvMemoryAllocated;
             EvOnBatchEnd {[ "loss" := VTensor (cpu (_collab self) loss);
                             "allocated_memory" := VInt mem ]}]
  | Cpu => [EvOnBatchEnd {[ "loss" := VTensor loss ]}]
  end.

Definition calls_gated (self : learner) (b1 b2 b3 : bool) (loss : Tensor) (mem : Z)
  : list event :=
  [EvOnBackwardBegin b1] ++ (if b1 then [EvBackward] else [])
    ++ [EvAfterBackward b2]
    ++ (if b2
        then [EvOptimizerStep; EvAfterStep b3] ++ (if b3 then [EvZeroGrad] else [])
               ++ calls_batch_end self loss mem
        else []).

(** The logs that [on_batch_end] receives, for the loss [loss] and the
    allocated memory [mem]. *)
Definition batch_end_logs (self : learner) (loss : Tensor) (mem : Z) : gmap string value :=
  match _device self with
  | Cuda => {[ "loss" := VTensor (cpu (_collab self) loss);
               "allocated_memory" := VInt mem ]}
  | Cpu => {[ "loss" := VTensor loss ]}
  end.

End LearnOneIter.

Arguments value : clear implicits.
Arguments event : clear implicits.
Arguments collaborators : clear implicits.
Arguments learner : clear implicits.

(** A learner on the CPU, without mixup, whose callbacks pass the batch
    and the losses through, let the backward pass run and veto the
    optimizer step; tensors are integers and there is no state. *)
Definition veto_collaborators : collaborators Z unit :=
  {| cb_on_batch_begin := λ data _ w, (data, w);
     transform_data := λ images labels w, ((images, labels), w);
     compute_loss := λ images labels _ w, ((images + labels)%Z, w);
     cb_after_losses := λ losses _ w, (losses, w);
     cb_on_backward_begin := λ w, (true, w);
     backward := λ _ w, w;
     cb_after_backward := λ w, (false, w);
     optimizer_step := λ w, w;
     cb_after_step := λ w, (true, w);
     optimizer_zero_grad := λ w, w;
     memory_allocated := λ _, 0%Z;
     cpu := λ t, t;
     cb_on_batch_end := λ _ w, w |}.

Definition veto_learner : learner Z unit :=
  {| _collab := veto_collaborators; _device := Cpu; _mixup := false |}.

(** A learner on a CUDA device whose world is a journal: every collaborator
    appends its name and the tensor it was given (0 where it is given
    none).  The [after_losses] callbacks add a penalty of 10 to every loss,
    the three control dispatches answer true, and the allocator reports the
    length of the journal. *)
Definition journal : Type := list (string * Z).

Definition journal_collaborators : collaborators Z journal :=
  {| cb_on_batch_begin := λ data _ w, (data, w ++ [("on_batch_begin", 0%Z)]);
     transform_data := λ images labels w, ((images, labels), w ++ [("transform_data", 0%Z)]);
     compute_loss := λ images labels _ w,
       ((images + labels)%Z, w ++ [("compute_loss", (images + labels)%Z)]);
     cb_after_losses := λ losses _ w,
       ((λ l, (l + 10)%Z) <$> losses, w ++ [("after_losses", 0%Z)]);
     cb_on_backward_begin := λ w, (true, w ++ [("on_backward_begin", 0%Z)]);
     backward := λ loss w, w ++ [("backward", loss)];
     cb_after_backward := λ w, (true, w ++ [("after_backward", 0%Z)]);
     optimizer_step := λ w, w ++ [("step", 0%Z)];
     cb_after_step := λ w, (true, w ++ [("after_step", 0%Z)]);
     optimizer_zero_grad := λ w, w ++ [("zero_grad", 0%Z)];
     memory_allocated := λ w, Z.of_nat (length w);
     cpu := λ t, t;
     cb_on_batch_end := λ logs w,
       w ++ [("on_batch_end",
              match logs !! "loss" with
              | Some (VTensor t) => t
              | _ => (-1)%Z
              end)] |}.

Definition journal_learner : learner Z journal :=
  {| _collab := journal_collaborators; _device := Cuda; _mixup := false |}.

(** The same learner with [after_losses] callbacks that hand back no
    loss. *)
Definition lossless_learner : learner Z journal :=
  {| _collab :=
       {| cb_on_batch_begin := cb_on_batch_begin journal_collaborators;
          transform_data := transform_data journal_collaborators;
          compute_loss := compute_loss journal_collaborators;
          cb_after_losses := λ losses _ w,
            (delete "loss" losses, w ++ [("after_losses", 0%Z)]);
          cb_on_backward_begin := cb_on_backward_begin journal_collaborators;
          backward := backward journal_collaborators;
          cb_after_backward := cb_after_backward journal_collaborators;
          optimizer_step := optimizer_step journal_collaborators;
          cb_after_step := cb_after_step journal_collaborators;
          optimizer_zero_grad := optimizer_zero_grad journal_collaborators;
          memory_allocated := memory_allocated journal_collaborators;
          cpu := cpu journal_collaborators;
          cb_on_batch_end := cb_on_batch_end journal_collaborators |};
     _device := Cuda;
     _mixup := false |}.

End Learner.

(** ** selector.py: triplet selectors *)

Module TripletSelectors.
Import Selector.

(** [TripletSelector] is abstract in [get_triplets]; what it returns is
    [np.array] of a Python list of triplets. *)
Class TripletSelector (E : Type) :=
  get_triplets : list E → list Z → result (list triplet).

Definition select {E : Type} `{TripletSelector E} (embeddings : list E) (labels : list Z)
  : result (list E * list E * list E) :=
  triplets ← get_triplets embeddings labels;
  t0 ← column (λ t : triplet, t.1.1) triplets;
  anchors ← index_select embeddings t0;
  t1 ← column (λ t : triplet, t.1.2) triplets;
  pos ← index_select embeddings t1;
  t2 ← column (λ t : triplet, t.2) triplets;
  negs ← index_select embeddings t2;
  Ok (anchors, pos, negs).

Definition AllTripletSelector (E : Type) : TripletSelector E :=
  λ _ labels, get_all_triplets labels.

(** [emb_pairwise_dist embeddings] is the distance matrix of the batch. *)
Definition BatchHardTripletSelector {E D : Type} (dle : D → D → bool)
           (emb_pairwise_dist : list E → nat → nat → D) : TripletSelector E :=
  λ embeddings labels, get_batch_hard_triplets dle (emb_pairwise_dist embeddings) labels.

End TripletSelectors.

(** ** progress_bar.py *)

Module ProgressBar.

(** The two fastprogress objects, by what the callback does to them: the
    bar over the epochs records whether iteration has begun and ended and
    the last value it was updated to; the bar over the batches records the
    length of the data it was made for and the last value. *)
Record master_bar := {
  mb_epochs : Z;
  mb_begun : bool;
  mb_ended : bool;
  mb_value : option Z
}.

Record progress_bar := {
  pb_total : nat;
  pb_value : option Z
}.

(** The callback before [on_train_begin]: [n_epoch] and the learner's
    training data, of which only the number of batches is used. *)
Record ProgressBarCB_new := {
  new_n_epoch : Z;
  new_train_data : nat
}.

(** The callback once [on_train_begin] has set its two bars; the other
    hooks read these attributes. *)
Record ProgressBarCB := {
  n_epoch : Z;
  _train_data : nat;
  the_master_bar : master_bar;
  the_progress_bar : progress_bar
}.

Definition master_update (mb : master_bar) (epoch : Z) : master_bar :=
  {| mb_epochs := mb_epochs mb; mb_begun := mb_begun mb; mb_ended := mb_ended mb;
     mb_value := Some epoch |}.

Definition set_progress (n_epoch : Z) (train_data : nat) (mb : master_bar)
           (data : nat) (epoch : Z) : ProgressBarCB :=
  {| n_epoch := n_epoch;
     _train_data := train_data;
     the_master_bar := master_update mb epoch;
     the_progress_bar := {| pb_total := data; pb_value := None |} |}.

Definition on_train_begin (self : ProgressBarCB_new) : ProgressBarCB :=
  let mb := {| mb_epochs := new_n_epoch self; mb_begun := true; mb_ended := false;
               mb_value := None |} in
  set_progress (new_n_epoch self) (new_train_data self) mb (new_train_data self) 0.

Definition on_batch_end (self : ProgressBarCB) (logs : gmap string Z) : result ProgressBarCB :=
  match logs !! "iter_cnt" with
  | None => Raise KeyError
  | Some iter_cnt =>
      if (Z.of_nat (_train_data self) =? 0)%Z then Raise ZeroDivisionError
      else Ok {| n_epoch := n_epoch self;
                 _train_data := _train_data self;
                 the_master_bar := the_master_bar self;
                 the_progress_bar :=
                   {| pb_total := pb_total (the_progress_bar self);
                      pb_value := Some (iter_cnt `mod` Z.of_nat (_train_data self))%Z |} |}
  end.

Definition on_epoch_end (self : ProgressBarCB) (logs : gmap string Z)
  : result (ProgressBarCB * bool) :=
  match logs !! "epoch" with
  | None => Raise KeyError
  | Some epoch =>
      Ok (set_progress (n_epoch self) (_train_data self) (the_master_bar self)
                       (_train_data self) (epoch + 1)%Z,
          false)
  end.

Definition on_train_end (self : ProgressBarCB) : ProgressBarCB :=
  {| n_epoch := n_epoch self;
     _train_data := _train_data self;
     the_master_bar :=
       {| mb_epochs := mb_epochs (the_master_bar self);
          mb_begun := mb_begun (the_master_bar self);
          mb_ended := true;
          mb_value := mb_value (the_master_bar self) |};
     the_progress_bar := the_progress_bar self |}.

End ProgressBar.

(** ** supervised.py: compute_loss *)

Module MixupLoss.

Section ComputeLoss.
(** [Criterion]: loss modules; [Rest]: the rest of the learner's state
    (model, callbacks, ...). *)
Context {Tensor Criterion Rest : Type}.

Record learner := {
  _criterion : Criterion;
  _mixup : bool;
  rest : Rest
}.

Definition set_criterion (self : learner) (c : Criterion) : learner :=
  {| _criterion := c; _mixup := _mixup self; rest := rest self |}.

(** [transform_loss] is the mixup transformer's, [training] reads
    [self._model.training], and [super_compute_loss] is the method of the
    base class, which works on the learner it is given. *)
Context (transform_loss : Criterion → bool → Criterion)
        (training : Rest → bool)
        (super_compute_loss : learner → Tensor → Tensor → bool → result Tensor * learner).

Definition compute_loss (self : learner) (images labels : Tensor) (train : bool)
  : result Tensor * learner :=
  let old_criterion := _criterion self in
  let self1 :=
    if _mixup self
    then set_criterion self (transform_loss (_criterion self) (training (rest self)))
    else self in
  match super_compute_loss self1 images labels train with
  | (Ok ret, self2) => (Ok ret, set_criterion self2 old_criterion)
  | (Raise e, self2) => (Raise e, self2)
  end.

End ComputeLoss.

(** A base method that fails on negative images and otherwise returns
    their sum with the criterion; the mixup transform adds 100. *)
Definition example_super (self : learner (Criterion := Z) (Rest := unit))
           (images labels : Z) (train : bool) : result Z * learner :=
  if (images <? 0)%Z then (Raise RuntimeError, self)
  else (Ok (images + labels + _criterion self)%Z, self).

Definition example_learner : learner (Criterion := Z) (Rest := unit) :=
  {| _criterion := 1%Z; _mixup := true; rest := () |}.

End MixupLoss.

(** ** supervised.py: a learner whose callbacks drop the labels *)

Module LearnerMore.
Import Learner.

(** A learner whose [on_batch_begin] callbacks hand back the batch without
    its labels. *)
Definition dropping_learner : learner Z unit :=
  {| _collab :=
       {| cb_on_batch_begin := λ data _ w, (delete "labels" data, w);
          transform_data := transform_data veto_collaborators;
          compute_loss := compute_loss veto_collaborators;
          cb_after_losses := cb_after_losses veto_collaborators;
          cb_on_backward_begin := cb_on_backward_begin veto_collaborators;
          backward := backward veto_collaborators;
          cb_after_backward := cb_after_backward veto_collaborators;
          optimizer_step := optimizer_step veto_collaborators;
          cb_after_step := cb_after_step veto_collaborators;
          optimizer_zero_grad := optimizer_zero_grad veto_collaborators;
          memory_allocated := memory_allocated veto_collaborators;
          cpu := cpu veto_collaborators;
          cb_on_batch_end := cb_on_batch_end veto_collaborators |};
     _device := Cpu;
     _mixup := false |}.

End LearnerMore.

(** ** test_lm.py *)

Module LMScript.

(** [l[i]] on a Python list: an index from [-len(l)] to [-1] counts from
    the end, an index outside [-len(l) .. len(l) - 1] raises IndexError. *)
Definition list_getitem {A : Type} (l : list A) (i : Z) : result A :=
  let n := Z.of_nat (length l) in
  let j := if (i <? 0)%Z then (i + n)%Z else i in
  if (j <? 0)%Z || (n <=? j)%Z then Raise IndexError
  else match l !! Z.to_nat j with
       | Some x => Ok x
       | None => Raise IndexError
       end.

(** [vocab] is given by its [itos] list. *)
Definition id_to_text (sequence : list Z) (itos : list string) : result (list string) :=
  traverse (λ token, list_getitem itos token) sequence.

End LMScript.

(** * Properties *)

(** ** The result monad *)

Lemma traverse_total {A B : Type} (f : A → result B) (g : A → B) (xs : list A) :
  (∀ x, x ∈ xs → f x = Ok (g x)) → traverse f xs = Ok (g <$> xs).
Proof.
  induction xs as [|x xs IH]; intros Hf; [done|].
  cbn. rewrite (Hf x) by left. cbn.
  rewrite IH; [done|]. intros y Hy. apply Hf. by right.
Qed.

Lemma traverse_Forall2 {A B : Type} (f : A → result B) (xs : list A) (ys : list B) :
  traverse f xs = Ok ys → Forall2 (λ x y, f x = Ok y) xs ys.
Proof.
  revert ys. induction xs as [|x xs IH]; intros ys; cbn.
  - intros [= <-]. constructor.
  - destruct (f x) as [y|e] eqn:Hx; cbn; [|done].
    destruct (traverse f xs) as [ys'|e] eqn:Hxs; cbn; [|done].
    intros [= <-]. constructor; [done|]. by apply IH.
Qed.

(** ** selector.py: all pairs *)

Section AllPairs.
Import Selector.

Lemma elem_of_combinations2 (n i j : nat) :
  (i, j) ∈ combinations2 n ↔ i < j < n.
Proof.
  unfold combinations2. rewrite list_elem_of_bind. split.
  - intros (k & Hin & Hk). apply list_elem_of_fmap in Hin as (j' & [= -> ->] & Hj).
    apply elem_of_seq in Hj. apply elem_of_seq in Hk. lia.
  - intros [Hij Hjn]. exists i. split.
    + apply list_elem_of_fmap. exists j. split; [done|]. apply elem_of_seq. lia.
    + apply elem_of_seq. lia.
Qed.

Lemma combinations2_lt (n : nat) (p : pair) :
  p ∈ combinations2 n → p.1 < p.2 < n.
Proof. destruct p as [i j]. apply elem_of_combinations2. Qed.

Lemma combinations2_nonempty (n : nat) : 2 ≤ n → combinations2 n ≠ [].
Proof.
  intros Hn Hnil. assert (H : (0, 1) ∈ combinations2 n) by (apply elem_of_combinations2; lia).
  rewrite Hnil in H. by apply elem_of_nil in H.
Qed.

Lemma combinations2_small (n : nat) : n < 2 → combinations2 n = [].
Proof.
  intros Hn. destruct n as [|[|n]]; [done|done|lia].
Qed.

Lemma uint8_lt (i : nat) : uint8 i < 256.
Proof. unfold uint8. apply Nat.mod_upper_bound. lia. Qed.

Lemma uint8_small (i : nat) : i < 256 → uint8 i = i.
Proof. unfold uint8. apply Nat.mod_small. Qed.

Lemma uint8_in_range (n i : nat) : i < n → uint8 i < n.
Proof.
  intros Hi. destruct (decide (i < 256)) as [Hs|Hs].
  - by rewrite uint8_small.
  - pose proof (uint8_lt i). lia.
Qed.

Lemma astype_uint8_small (n : nat) :
  n ≤ 256 → astype_uint8 (combinations2 n) = combinations2 n.
Proof.
  intros Hn. unfold astype_uint8.
  transitivity (id <$> combinations2 n); [|apply list_fmap_id].
  apply list_fmap_ext. intros k [i j] Hk%list_elem_of_lookup_2.
  apply combinations2_lt in Hk. cbn [fst snd] in *.
  rewrite !uint8_small by lia. done.
Qed.

Lemma compress_fmap {R : Type} (f : R → bool) (rows : list R) :
  compress (f <$> rows) rows = List.filter f rows.
Proof.
  induction rows as [|r rows IH]; [done|].
  cbn. rewrite IH. done.
Qed.

Lemma zip_with_fmap_both {X Y V W : Type} (h : V → W → Y) (f : X → V) (g : X → W)
      (l : list X) :
  zip_with h (f <$> l) (g <$> l) = (λ x, h (f x) (g x)) <$> l.
Proof. induction l as [|x l IH]; [done|]. cbn. by rewrite IH. Qed.

Lemma take_in_range (a : list Z) (idx : list nat) :
  (∀ i, i ∈ idx → i < length a) → take a idx = Ok (label_at a <$> idx).
Proof.
  intros Hidx. unfold take. apply traverse_total.
  intros i Hi. unfold label_at.
  destruct (lookup_lt_is_Some_2 a i (Hidx i Hi)) as [x ->]. done.
Qed.

(** With at least two rows [get_all_pairs] returns, and what it returns
    are the cast pairs split by [same_label]. *)
Lemma get_all_pairs_Ok (labels : list Z) :
  2 ≤ length labels →
  get_all_pairs labels =
    Ok (List.filter (same_label labels) (astype_uint8 (combinations2 (length labels))),
        List.filter (λ p, negb (same_label labels p))
                    (astype_uint8 (combinations2 (length labels)))).
Proof.
  intros Hn. unfold get_all_pairs.
  set (all_pairs := astype_uint8 (combinations2 (length labels))).
  assert (Hne : all_pairs ≠ []).
  { unfold all_pairs, astype_uint8. intros Hnil%fmap_nil_inv.
    by apply (combinations2_nonempty (length labels)). }
  assert (Hrange : ∀ p, p ∈ all_pairs → p.1 < length labels ∧ p.2 < length labels).
  { intros p (q & -> & Hq%combinations2_lt)%list_elem_of_fmap. cbn.
    split; apply uint8_in_range; lia. }
  assert (Hcol : ∀ proj : pair → nat, column proj all_pairs = Ok (proj <$> all_pairs)).
  { intros proj. unfold column. by destruct all_pairs. }
  rewrite !Hcol. cbn.
  rewrite (take_in_range labels (fst <$> all_pairs)); cbn.
  2:{ intros i (p & -> & Hp)%list_elem_of_fmap. by apply Hrange. }
  rewrite (take_in_range labels (snd <$> all_pairs)); cbn.
  2:{ intros i (p & -> & Hp)%list_elem_of_fmap. by apply Hrange. }
  rewrite <- !list_fmap_compose, !zip_with_fmap_both.
  rewrite (compress_fmap (λ p, (label_at labels p.1 =? label_at labels p.2)%Z)).
  rewrite (compress_fmap (λ p, negb (label_at labels p.1 =? label_at labels p.2)%Z)).
  done.
Qed.

(** With fewer than two rows the array of pairs is one-dimensional and
    slicing its first column raises. *)
Lemma get_all_pairs_small (labels : list Z) :
  length labels < 2 → get_all_pairs labels = Raise IndexError.
Proof.
  intros Hn. unfold get_all_pairs. by rewrite combinations2_small.
Qed.

Lemma filter_split_Permutation {R : Type} (f : R → bool) (l : list R) :
  List.filter f l ++ List.filter (λ x, negb (f x)) l ≡ₚ l.
Proof.
  induction l as [|x l IH]; [done|].
  cbn. destruct (f x); cbn.
  - by rewrite IH.
  - rewrite <- Permutation_middle. by rewrite IH.
Qed.

Lemma elem_of_List_filter {R : Type} (f : R → bool) (l : list R) (x : R) :
  x ∈ List.filter f l ↔ x ∈ l ∧ f x = true.
Proof. rewrite !list_elem_of_In. apply filter_In. Qed.

Lemma get_all_triplets_Ok (labels : list Z) (pos neg : list pair) :
  get_all_pairs labels = Ok (pos, neg) →
  ∃ ts, get_all_triplets labels = Ok ts ∧
        ∀ a p n, (a, p, n) ∈ ts ↔ (a, p) ∈ pos ∧ (a, n) ∈ neg.
Proof.
  intros Hp. unfold get_all_triplets. rewrite Hp. cbn. eexists. split; [done|].
  intros a p n. rewrite list_elem_of_bind. split.
  - intros ([a1 p1] & Hin & Hpos). apply list_elem_of_bind in Hin as ([a2 n2] & Hin & Hneg).
    cbn in Hin. destruct (Nat.eqb_spec a1 a2) as [->|]; [|by apply elem_of_nil in Hin].
    apply list_elem_of_singleton in Hin as [= -> -> ->]. done.
  - intros [Hpos Hneg]. exists (a, p). split; [|done].
    apply list_elem_of_bind. exists (a, n). split; [|done].
    cbn. rewrite Nat.eqb_refl. by apply list_elem_of_singleton.
Qed.

Lemma length_batch257 : length batch257 = 257.
Proof. reflexivity. Qed.

Lemma label_at_batch257 (i : nat) : i < 257 → label_at batch257 i = Z.of_nat i.
Proof.
  intros Hi. unfold label_at, batch257.
  rewrite list_lookup_fmap, lookup_seq_lt by done. done.
Qed.

(** What the cast does to the pair of the rows 0 and 256 of [batch257]. *)
Lemma get_all_pairs_batch257 :
  ∃ pos neg, get_all_pairs batch257 = Ok (pos, neg) ∧
             (0, 0) ∈ pos ∧ (0, 1) ∈ neg ∧ (0, 256) ∉ pos ++ neg.
Proof.
  eexists _, _. split; [apply get_all_pairs_Ok; rewrite length_batch257; lia|].
  rewrite length_batch257. split_and!.
  - apply elem_of_List_filter. split.
    + apply list_elem_of_fmap. exists (0, 256). split; [done|].
      apply elem_of_combinations2. lia.
    + unfold same_label. apply Z.eqb_refl.
  - apply elem_of_List_filter. split.
    + apply list_elem_of_fmap. exists (0, 1). split; [done|].
      apply elem_of_combinations2. lia.
    + unfold same_label. cbn [fst snd]. by rewrite !label_at_batch257 by lia.
  - intros [H|H]%elem_of_app; apply elem_of_List_filter in H as [H _];
      apply list_elem_of_fmap in H as (q & [= _ Hq] & _);
      pose proof (uint8_lt q.2); lia.
Qed.

End AllPairs.

(** For a batch of 2 to 256 rows the pairs are the index pairs [i < j]
    themselves, split by whether the two labels agree. *)
Lemma get_all_pairs_upto_256 (labels : list Z) :
  2 ≤ length labels ≤ 256 →
  ∃ pos neg, Selector.get_all_pairs labels = Ok (pos, neg) ∧
    (∀ i j, (i, j) ∈ pos ↔ i < j < length labels ∧ labels !! i = labels !! j) ∧
    (∀ i j, (i, j) ∈ neg ↔ i < j < length labels ∧ labels !! i ≠ labels !! j).
Proof.
  intros [Hlo Hhi]. eexists _, _. split; [by apply get_all_pairs_Ok|].
  rewrite astype_uint8_small by done.
  assert (Hlab : ∀ i j, i < j < length labels →
            (Selector.same_label labels (i, j) = true ↔ labels !! i = labels !! j)).
  { intros i j Hij. unfold Selector.same_label, Selector.label_at. cbn [fst snd].
    destruct (lookup_lt_is_Some_2 labels i) as [x ->]; [lia|].
    destruct (lookup_lt_is_Some_2 labels j) as [y ->]; [lia|].
    cbn. rewrite Z.eqb_eq. split; congruence. }
  split; intros i j; rewrite elem_of_List_filter, elem_of_combinations2.
  - split; intros [Hij Hl]; (split; [done|]); by apply Hlab.
  - rewrite negb_true_iff, <- not_true_iff_false.
    split; intros [Hij Hl]; (split; [done|]); intros Heq; apply Hl; by apply Hlab.
Qed.

(** C10: [get_all_pairs] casts the enumerated index pairs to 8-bit unsigned
    integers.  On a batch of at least two rows it returns, and the pairs it
    returns (positive and negative together) are the pairs [i < j] of rows
    with both indices reduced modulo 256, so every returned index is below
    256; for a batch of at most 256 rows the returned pairs are the true
    index pairs. *)
Theorem get_all_pairs_uint8_cast (labels : list Z) :
  2 ≤ length labels →
  ∃ pos neg, Selector.get_all_pairs labels = Ok (pos, neg) ∧
    pos ++ neg ≡ₚ (λ p, (p.1 mod 256, p.2 mod 256)) <$> Selector.combinations2 (length labels) ∧
    (∀ i j, i < j < length labels → (i mod 256, j mod 256) ∈ pos ++ neg) ∧
    (∀ p, p ∈ pos ++ neg → p.1 < 256 ∧ p.2 < 256) ∧
    (length labels ≤ 256 →
       pos ++ neg ≡ₚ Selector.combinations2 (length labels) ∧
       ∀ i j, (i, j) ∈ pos ++ neg ↔ i < j < length labels).
Proof.
  intros Hn. eexists _, _. split; [by apply get_all_pairs_Ok|].
  pose proof (filter_split_Permutation (Selector.same_label labels)
                (Selector.astype_uint8 (Selector.combinations2 (length labels)))) as Hperm.
  split_and!.
  - exact Hperm.
  - intros i j Hij. rewrite Hperm. apply list_elem_of_fmap. exists (i, j).
    split; [done|]. by apply elem_of_combinations2.
  - intros p. rewrite Hperm. intros (q & -> & _)%list_elem_of_fmap.
    split; apply uint8_lt.
  - intros Hle. rewrite astype_uint8_small in * by done.
    split; [done|]. intros i j. rewrite Hperm. apply elem_of_combinations2.
Qed.

Lemma get_all_pairs_uint8_cast_witness :
  ∃ pos neg, Selector.get_all_pairs [0; 0; 1]%Z = Ok (pos, neg) ∧
    pos ++ neg ≡ₚ (λ p, (p.1 mod 256, p.2 mod 256)) <$> Selector.combinations2 3 ∧
    (∀ i j, i < j < 3 → (i mod 256, j mod 256) ∈ pos ++ neg) ∧
    (∀ p, p ∈ pos ++ neg → p.1 < 256 ∧ p.2 < 256) ∧
    (3 ≤ 256 →
       pos ++ neg ≡ₚ Selector.combinations2 3 ∧
       ∀ i j, (i, j) ∈ pos ++ neg ↔ i < j < 3).
Proof. apply (get_all_pairs_uint8_cast [0; 0; 1]%Z). cbn. lia. Defined.

(** C5: on the labels [0,0,1] [get_all_pairs] returns the positive pair
    (0,1) and the negative pairs (0,2) and (1,2).  On the 257 distinct
    labels of [batch257] it returns the self-pair (0,0) as a positive pair,
    in place of the pair (0,256) of two rows with different labels. *)
Theorem get_all_pairs_self_pair :
  Selector.get_all_pairs [0; 0; 1]%Z = Ok ([(0, 1)], [(0, 2); (1, 2)]) ∧
  ∃ pos neg, Selector.get_all_pairs Selector.batch257 = Ok (pos, neg) ∧
    (0, 0) ∈ pos ∧ ((0, 256) ∉ pos ++ neg) ∧
    Selector.batch257 !! 0 ≠ Selector.batch257 !! 256.
Proof.
  split; [reflexivity|].
  destruct get_all_pairs_batch257 as (pos & neg & Hp & H00 & _ & H256).
  exists pos, neg. split_and!; done.
Qed.

(** C2: on the labels [0,0,1,1] [get_all_triplets] returns the two
    triplets (0,1,2) and (0,1,3) and nothing else: no triplet has the
    anchor 1. *)
Theorem get_all_triplets_0011 :
  Selector.get_all_triplets [0; 0; 1; 1]%Z = Ok [(0, 1, 2); (0, 1, 3)] ∧
  ∀ ts, Selector.get_all_triplets [0; 0; 1; 1]%Z = Ok ts →
        ((1, 0, 2) ∉ ts) ∧ ((1, 0, 3) ∉ ts).
Proof.
  split; [reflexivity|].
  intros ts [= <-]. split; intros H; repeat (apply elem_of_cons in H as [[=]|H]);
    by apply elem_of_nil in H.
Qed.

(** *** Degenerate batches

    Where the selectors do return nothing on a batch with a single label or
    with labels that are all distinct: [get_all_triplets] needs at least
    two rows, and for distinct labels at most 256 of them. *)

Lemma List_filter_none {R : Type} (f : R → bool) (l : list R) :
  (∀ x, x ∈ l → f x = false) → List.filter f l = [].
Proof.
  intros Hf. apply elem_of_nil_inv. intros x [Hx Hfx]%elem_of_List_filter.
  rewrite (Hf x Hx) in Hfx. done.
Qed.

Lemma get_all_triplets_empty (labels : list Z) (pos neg : list Selector.pair) :
  Selector.get_all_pairs labels = Ok (pos, neg) → pos = [] ∨ neg = [] →
  Selector.get_all_triplets labels = Ok [].
Proof.
  intros Hp Hempty. destruct (get_all_triplets_Ok labels pos neg Hp) as (ts & -> & Hin).
  f_equal. apply elem_of_nil_inv. intros [[a p] n] [Hpos Hneg]%Hin.
  destruct Hempty as [-> | ->]; [by apply elem_of_nil in Hpos|by apply elem_of_nil in Hneg].
Qed.

Lemma get_all_triplets_single_label (labels : list Z) :
  2 ≤ length labels →
  (∀ i j ci cj, labels !! i = Some ci → labels !! j = Some cj → ci = cj) →
  (∃ pos, Selector.get_all_pairs labels = Ok (pos, [])) ∧
  Selector.get_all_triplets labels = Ok [].
Proof.
  intros Hn Hsame.
  assert (Hp : ∃ pos, Selector.get_all_pairs labels = Ok (pos, [])).
  { eexists. rewrite get_all_pairs_Ok by done. do 2 f_equal.
    apply List_filter_none. intros p (q & -> & Hq%combinations2_lt)%list_elem_of_fmap.
    apply negb_false_iff, Z.eqb_eq. unfold Selector.label_at. cbn [fst snd].
    destruct (lookup_lt_is_Some_2 labels (Selector.uint8 q.1)) as [x Hx];
      [apply uint8_in_range; lia|].
    destruct (lookup_lt_is_Some_2 labels (Selector.uint8 q.2)) as [y Hy];
      [apply uint8_in_range; lia|].
    rewrite Hx, Hy. cbn. exact (Hsame _ _ _ _ Hx Hy). }
  split; [done|]. destruct Hp as [pos Hp].
  eapply get_all_triplets_empty; [done|by right].
Qed.

Lemma get_all_triplets_distinct_labels (labels : list Z) :
  2 ≤ length labels ≤ 256 → NoDup labels →
  (∃ neg, Selector.get_all_pairs labels = Ok ([], neg)) ∧
  Selector.get_all_triplets labels = Ok [].
Proof.
  intros Hn Hnd. destruct (get_all_pairs_upto_256 labels Hn) as (pos & neg & Hp & Hpos & _).
  assert (pos = []) as ->.
  { apply elem_of_nil_inv. intros [i j] [Hij Hl]%Hpos.
    destruct (lookup_lt_is_Some_2 labels i) as [x Hx]; [lia|].
    rewrite Hx in Hl. pose proof (NoDup_lookup _ _ _ _ Hnd Hx (eq_sym Hl)). lia. }
  split; [by exists neg|]. eapply get_all_triplets_empty; [done|by left].
Qed.

(** C7: on a batch of one row, which has a single label and whose labels
    are all distinct, [get_all_pairs] and [get_all_triplets] raise
    IndexError; on the 257 distinct labels of [batch257], [get_all_pairs]
    returns a positive pair and [get_all_triplets] a triplet. *)
Theorem get_all_triplets_degenerate :
  Selector.get_all_pairs [5]%Z = Raise IndexError ∧
  Selector.get_all_triplets [5]%Z = Raise IndexError ∧
  NoDup Selector.batch257 ∧
  ∃ pos neg ts,
    Selector.get_all_pairs Selector.batch257 = Ok (pos, neg) ∧ (0, 0) ∈ pos ∧
    Selector.get_all_triplets Selector.batch257 = Ok ts ∧ (0, 0, 1) ∈ ts.
Proof.
  split; [reflexivity|]. split; [reflexivity|]. split.
  { unfold Selector.batch257. apply NoDup_fmap; [apply _|apply NoDup_seq]. }
  destruct get_all_pairs_batch257 as (pos & neg & Hp & H00 & H01 & _).
  destruct (get_all_triplets_Ok _ _ _ Hp) as (ts & Hts & Hin).
  exists pos, neg, ts. split_and!; [done..|]. apply Hin. split; assumption.
Qed.

(** ** selector.py: gathering the pairs *)

Section Select.
Import Selector.
Context {E : Type}.

Lemma index_select_Ok (embeddings : list E) (index : list nat) :
  (∀ i, i ∈ index → i < length embeddings) →
  ∃ rows, index_select embeddings index = Ok rows ∧
          Forall2 (λ i e, embeddings !! i = Some e) index rows.
Proof.
  induction index as [|i index IH]; intros Hin.
  - exists []. split; [done|constructor].
  - destruct IH as (rows & Hrows & Hall).
    { intros k Hk. apply Hin. by right. }
    destruct (lookup_lt_is_Some_2 embeddings i) as [e He]; [apply Hin; by left|].
    exists (e :: rows). unfold index_select in *. cbn. rewrite He. cbn.
    rewrite Hrows. cbn. split; [done|]. by constructor.
Qed.

Lemma index_select_column (proj : pair → nat) (embeddings : list E) (pairs : list pair) :
  (∀ p, p ∈ pairs → proj p < length embeddings) →
  ∃ rows, index_select embeddings (proj <$> pairs) = Ok rows ∧
          Forall2 (λ p e, embeddings !! proj p = Some e) pairs rows.
Proof.
  intros Hin. destruct (index_select_Ok embeddings (proj <$> pairs)) as (rows & Hr & Hall).
  { intros i (p & -> & Hp)%list_elem_of_fmap. by apply Hin. }
  exists rows. split; [done|]. by apply Forall2_fmap_l in Hall.
Qed.

End Select.

(** On CPU embeddings, when [get_pairs] returns pairs whose indices are rows
    of the embeddings, [select] returns the rows gathered at the first and
    at the second index of the pairs of [pos ++ neg], in that order, and
    the similarity labels 1 for each positive position followed by 0 for
    each negative one. *)
Lemma select_cpu_positives_then_negatives {E : Type} `{!Selector.PairSelector E}
      (embeddings : list E) (labels : list Z) (pos neg : list Selector.pair) :
  Selector.get_pairs embeddings labels = Ok (pos, neg) →
  (∀ p, p ∈ pos ++ neg → p.1 < length embeddings ∧ p.2 < length embeddings) →
  ∃ first second sim,
    Selector.select Selector.CPU embeddings labels = Ok ((first, second), sim) ∧
    Forall2 (λ p e, embeddings !! p.1 = Some e) (pos ++ neg) first ∧
    Forall2 (λ p e, embeddings !! p.2 = Some e) (pos ++ neg) second ∧
    sim = replicate (length pos) 1%Z ++ replicate (length neg) 0%Z.
Proof.
  intros Hp Hin.
  assert (Hpos : ∀ p, p ∈ pos → p.1 < length embeddings ∧ p.2 < length embeddings).
  { intros p Hp'. apply Hin, elem_of_app. by left. }
  assert (Hneg : ∀ p, p ∈ neg → p.1 < length embeddings ∧ p.2 < length embeddings).
  { intros p Hp'. apply Hin, elem_of_app. by right. }
  destruct (index_select_column fst embeddings pos) as (fp & Hfp & Afp); [intros; by apply Hpos|].
  destruct (index_select_column fst embeddings neg) as (fn & Hfn & Afn); [intros; by apply Hneg|].
  destruct (index_select_column snd embeddings pos) as (sp & Hsp & Asp); [intros; by apply Hpos|].
  destruct (index_select_column snd embeddings neg) as (sn & Hsn & Asn); [intros; by apply Hneg|].
  exists (fp ++ fn), (sp ++ sn), (replicate (length pos) 1%Z ++ replicate (length neg) 0%Z).
  split_and!; [|by apply Forall2_app..|done].
  unfold Selector.select, Selector.index_select_on, Selector.to_device, Selector.tensor_long,
    Selector.pair in *.
  rewrite Hp. cbn -[Selector.index_select].
  rewrite Hfp. cbn -[Selector.index_select]. rewrite Hfn. cbn -[Selector.index_select].
  rewrite Hsp. cbn -[Selector.index_select]. rewrite Hsn. done.
Qed.

(** On CUDA embeddings the gathering stops at the first column of the
    negative pairs. *)
Lemma select_cuda_raises {E : Type} `{!Selector.PairSelector E}
      (embeddings : list E) (labels : list Z) (pos neg : list Selector.pair) :
  Selector.get_pairs embeddings labels = Ok (pos, neg) →
  (∀ p, p ∈ pos → p.1 < length embeddings) →
  Selector.select Selector.CUDA embeddings labels = Raise RuntimeError.
Proof.
  intros Hp Hin.
  destruct (index_select_column fst embeddings pos) as (fp & Hfp & _); [done|].
  unfold Selector.select, Selector.index_select_on, Selector.to_device, Selector.tensor_long,
    Selector.pair in *.
  rewrite Hp. cbn -[Selector.index_select]. rewrite Hfp. done.
Qed.

(** C6: with CPU embeddings, when [get_pairs] returns pairs whose indices
    are rows of the embeddings, [PairSelector.select] returns the gathered
    rows with the positive pairs first and the negative pairs second and
    the similarity labels 1 and 0 in that order; with CUDA embeddings it
    raises RuntimeError, because the index of the first column of the
    negative pairs is left on the CPU. *)
Theorem select_on_device {E : Type} `{!Selector.PairSelector E} (d : Selector.device)
        (embeddings : list E) (labels : list Z) (pos neg : list Selector.pair) :
  Selector.get_pairs embeddings labels = Ok (pos, neg) →
  (∀ p, p ∈ pos ++ neg → p.1 < length embeddings ∧ p.2 < length embeddings) →
  match d with
  | Selector.CPU =>
      ∃ first second sim,
        Selector.select Selector.CPU embeddings labels = Ok ((first, second), sim) ∧
        Forall2 (λ p e, embeddings !! p.1 = Some e) (pos ++ neg) first ∧
        Forall2 (λ p e, embeddings !! p.2 = Some e) (pos ++ neg) second ∧
        sim = replicate (length pos) 1%Z ++ replicate (length neg) 0%Z
  | Selector.CUDA =>
      Selector.select Selector.CUDA embeddings labels = Raise RuntimeError
  end.
Proof.
  intros Hp Hin. destruct d.
  - by apply select_cpu_positives_then_negatives.
  - eapply select_cuda_raises; [done|].
    intros p Hp'. apply Hin, elem_of_app. by left.
Qed.

Lemma select_on_device_witness :
  Selector.select (H := Selector.AllPairSelector Z) Selector.CUDA [10; 20; 30]%Z [0; 0; 1]%Z
  = Raise RuntimeError.
Proof.
  apply (select_on_device (H := Selector.AllPairSelector Z) Selector.CUDA
           [10; 20; 30]%Z [0; 0; 1]%Z [(0, 1)] [(0, 2); (1, 2)]).
  - reflexivity.
  - intros p Hp. cbn in Hp.
    repeat (apply elem_of_cons in Hp as [->|Hp]; [cbn; lia|]).
    by apply elem_of_nil in Hp.
Defined.

Example select_001 :
  Selector.select (H := Selector.AllPairSelector Z) Selector.CPU [10; 20; 30]%Z [0; 0; 1]%Z
  = Ok (([10; 10; 20], [20; 30; 30]), [1; 0; 0])%Z.
Proof. reflexivity. Qed.

(** ** selector.py: batch-hard triplets *)

Lemma traverse_Ok_Forall2 {A B : Type} (f : A → result B) (P : A → B → Prop) (xs : list A) :
  (∀ x, x ∈ xs → ∃ y, f x = Ok y ∧ P x y) →
  ∃ ys, traverse f xs = Ok ys ∧ Forall2 P xs ys.
Proof.
  induction xs as [|x xs IH]; intros Hf.
  - exists []. split; [done|constructor].
  - destruct (Hf x) as (y & Hy & HP); [by left|].
    destruct IH as (ys & Hys & Hall); [intros z Hz; apply Hf; by right|].
    exists (y :: ys). cbn. rewrite Hy. cbn. rewrite Hys. cbn.
    split; [done|]. by constructor.
Qed.

Lemma List_filter_concat {A : Type} (f : A → bool) (ls : list (list A)) :
  List.filter f (List.concat ls) = List.concat (List.filter f <$> ls).
Proof.
  induction ls as [|l ls IH]; [done|].
  cbn. by rewrite List.filter_app, IH.
Qed.

Lemma two_distinct_length {A : Type} (l : list A) (x y : A) :
  x ∈ l → y ∈ l → x ≠ y → 2 ≤ length l.
Proof.
  intros Hx Hy Hne. destruct l as [|a [|b l]]; cbn; [|exfalso|lia].
  - by apply elem_of_nil in Hx.
  - apply list_elem_of_singleton in Hx, Hy. congruence.
Qed.

Lemma other_member {A : Type} `{EqDecision A} (l : list A) (x : A) :
  NoDup l → 2 ≤ length l → ∃ y, y ∈ l ∧ y ≠ x.
Proof.
  intros Hnd Hlen. destruct l as [|a [|b l]]; cbn in Hlen; [lia|lia|].
  apply NoDup_cons in Hnd as [Hab _].
  assert (a ≠ b) by (intros ->; apply Hab; by left).
  destruct (decide (a = x)) as [->|Hax].
  - exists b. split; [by right; left|]. congruence.
  - exists a. split; [by left|done].
Qed.

Section ArgBest.
Import Selector.
Context {D : Type} (le : D → D → bool).
Hypothesis le_total : ∀ x y, le x y = true ∨ le y x = true.
Hypothesis le_trans : ∀ x y z, le x y = true → le y z = true → le x z = true.

(** The scan keeps the position of an element that every element seen so
    far is below. *)
Lemma arg_best_spec (ds pre : list D) (best_i : nat) (best : D) :
  pre !! best_i = Some best →
  (∀ x, x ∈ pre → le x best = true) →
  ∃ e, (pre ++ ds) !! arg_best (λ x y, negb (le x y)) best_i best (length pre) ds = Some e ∧
       ∀ x, x ∈ pre ++ ds → le x e = true.
Proof.
  revert pre best_i best. induction ds as [|d ds IH]; intros pre best_i best Hbest Hall.
  - exists best. rewrite app_nil_r. done.
  - cbn [arg_best]. destruct (le d best) eqn:Hd; cbn [negb].
    + destruct (IH (pre ++ [d]) best_i best) as (e & He & Hmax).
      * by apply lookup_app_l_Some.
      * intros x [Hx|Hx%list_elem_of_singleton]%elem_of_app; [by apply Hall|by subst].
      * exists e. rewrite length_app, Nat.add_1_r, <- app_assoc in He.
        rewrite <- app_assoc in Hmax. done.
    + assert (Hbd : le best d = true) by (destruct (le_total best d); congruence).
      destruct (IH (pre ++ [d]) (length pre) d) as (e & He & Hmax).
      * by apply list_lookup_middle.
      * intros x [Hx|Hx%list_elem_of_singleton]%elem_of_app.
        -- eapply le_trans; [by apply Hall|done].
        -- subst. by destruct (le_total d d).
      * exists e. rewrite length_app, Nat.add_1_r, <- app_assoc in He.
        rewrite <- app_assoc in Hmax. done.
Qed.

(** Choosing, among the candidates [l] for the anchor [an], a position of
    the best distance, and reading the candidate back from the pairs. *)
Lemma pick_best (dist_mat : nat → nat → D) (an : nat) (l : list nat)
      (arg : list D → result nat) :
  (∀ d ds, arg (d :: ds) = Ok (arg_best (λ x y, negb (le x y)) 0 d 1 ds)) →
  l ≠ [] →
  ∃ k p, arg (zip_with dist_mat (fst <$> ((λ q, (an, q)) <$> l))
                                (snd <$> ((λ q, (an, q)) <$> l))) = Ok k ∧
         row_snd ((λ q, (an, q)) <$> l) k = Ok p ∧
         p ∈ l ∧
         ∀ q, q ∈ l → le (dist_mat an q) (dist_mat an p) = true.
Proof.
  intros Harg Hne.
  rewrite <- !list_fmap_compose, zip_with_fmap_both. cbn [compose fst snd].
  destruct l as [|q0 l]; [done|]. rewrite fmap_cons, Harg.
  destruct (arg_best_spec (dist_mat an <$> l) [dist_mat an q0] 0 (dist_mat an q0))
    as (e & He & Hmax); [done| |].
  { intros x ->%list_elem_of_singleton. by destruct (le_total (dist_mat an q0) (dist_mat an q0)). }
  cbn [length app] in He, Hmax.
  set (k := arg_best _ _ _ _ _) in *.
  change (dist_mat an q0 :: (dist_mat an <$> l)) with (dist_mat an <$> q0 :: l) in He, Hmax.
  apply list_lookup_fmap_Some in He as (p & -> & Hp).
  exists k, p. split_and!.
  - done.
  - unfold row_snd. rewrite list_lookup_fmap, Hp. done.
  - by eapply list_elem_of_lookup_2.
  - intros q Hq. apply Hmax. by apply list_elem_of_fmap_2.
Qed.

End ArgBest.

Lemma bind_Ok {A B : Type} (a : A) (k : A → result B) : Ok a ≫= k = k a.
Proof. reflexivity. Qed.

Section BatchHard.
Import Selector.
Context {D : Type} (dle : D → D → bool).
Hypothesis dle_total : ∀ x y, dle x y = true ∨ dle y x = true.
Hypothesis dle_trans : ∀ x y z, dle x y = true → dle y z = true → dle x z = true.
Variable dist_mat : nat → nat → D.

Lemma elem_of_where_eq (labels : list Z) (c : Z) (i : nat) :
  i ∈ where_eq labels c ↔ labels !! i = Some c.
Proof.
  unfold where_eq. rewrite elem_of_List_filter, elem_of_seq. split.
  - intros [_ Hi]. destruct (labels !! i) as [l|]; [|done].
    apply Z.eqb_eq in Hi. by subst.
  - intros Hi. split; [apply lookup_lt_Some in Hi; lia|].
    rewrite Hi. apply Z.eqb_refl.
Qed.

Lemma elem_of_where_ne (labels : list Z) (c : Z) (i : nat) :
  i ∈ where_ne labels c ↔ ∃ c', labels !! i = Some c' ∧ c' ≠ c.
Proof.
  unfold where_ne. rewrite elem_of_List_filter, elem_of_seq. split.
  - intros [_ Hi]. destruct (labels !! i) as [l|]; [|done].
    exists l. split; [done|]. apply negb_true_iff, Z.eqb_neq in Hi. done.
  - intros (c' & Hi & Hne). split; [apply lookup_lt_Some in Hi; lia|].
    rewrite Hi. by apply negb_true_iff, Z.eqb_neq.
Qed.

Lemma NoDup_where_eq (labels : list Z) (c : Z) : NoDup (where_eq labels c).
Proof. unfold where_eq. apply NoDup_ListNoDup, List.NoDup_filter, NoDup_ListNoDup, NoDup_seq. Qed.

Lemma column_nonempty {R : Type} (proj : R → nat) (rows : list R) :
  rows ≠ [] → column proj rows = Ok (proj <$> rows).
Proof. by destruct rows. Qed.

Lemma hardest_Ok (c_idx other_idx : list nat) (an : nat) :
  (∃ p, p ∈ c_idx ∧ p ≠ an) → other_idx ≠ [] →
  ∃ t, hardest dle dist_mat c_idx other_idx an = Ok t ∧
       hardest_of dle dist_mat c_idx other_idx an t.
Proof.
  intros (p0 & Hp0 & Hne0) Hother.
  set (cands := List.filter (λ p, negb (p =? an)) c_idx).
  assert (Hcands : ∀ q, q ∈ cands ↔ q ∈ c_idx ∧ q ≠ an).
  { intros q. unfold cands. by rewrite elem_of_List_filter, negb_true_iff, Nat.eqb_neq. }
  assert (Hne : cands ≠ []).
  { intros Hnil. assert (H : p0 ∈ cands) by (by apply Hcands).
    rewrite Hnil in H. by apply elem_of_nil in H. }
  destruct (pick_best dle dle_total dle_trans dist_mat an cands (argmax dle))
    as (k & p & Hk & Hrow & Hp & Hmax); [done|done|].
  destruct (pick_best (λ x y, dle y x) (λ x y, dle_total y x)
              (λ x y z Hxy Hyz, dle_trans z y x Hyz Hxy) dist_mat an other_idx (argmin dle))
    as (k' & n & Hk' & Hrow' & Hn & Hmin); [done|done|].
  exists (an, p, n). split.
  - unfold hardest. fold cands. cbv zeta.
    rewrite !column_nonempty by (by intros ?%fmap_nil_inv).
    rewrite !bind_Ok, Hk, bind_Ok, Hk', bind_Ok, Hrow, bind_Ok, Hrow', bind_Ok. done.
  - exists p, n. apply Hcands in Hp as [Hp Hpa]. split_and!; try done.
    intros q Hq Hqa. apply Hmax. by apply Hcands.
Qed.

Lemma hardest_of_anchor (c_idx other_idx : list nat) (an : nat) (t : triplet) :
  hardest_of dle dist_mat c_idx other_idx an t → anchor t = an.
Proof. by intros (p & n & -> & _). Qed.

(** The loop body for one class never raises; it yields one triplet per
    member when the class has two members and there is a row outside it,
    and nothing otherwise. *)
Lemma class_triplets_Ok (labels : list Z) (c : Z) :
  ∃ ts, class_triplets dle dist_mat labels c = Ok ts ∧
    ((2 ≤ length (where_eq labels c) ∧ where_ne labels c ≠ []) ∧
       Forall2 (hardest_of dle dist_mat (where_eq labels c) (where_ne labels c))
               (where_eq labels c) ts
     ∨ ¬ (2 ≤ length (where_eq labels c) ∧ where_ne labels c ≠ []) ∧ ts = []).
Proof.
  unfold class_triplets. cbv zeta.
  destruct (Nat.ltb_spec (length (where_eq labels c)) 2) as [Hc|Hc].
  { exists []. split; [done|]. right. split; [lia|done]. }
  destruct (Nat.ltb_spec (length (where_ne labels c)) 1) as [Ho|Ho].
  { exists []. split; [done|]. right. split; [|done].
    intros [_ Hne]. destruct (where_ne labels c); [done|cbn in Ho; lia]. }
  assert (Hne : where_ne labels c ≠ []) by (intros Hnil; rewrite Hnil in Ho; cbn in Ho; lia).
  destruct (traverse_Ok_Forall2
              (hardest dle dist_mat (where_eq labels c) (where_ne labels c))
              (hardest_of dle dist_mat (where_eq labels c) (where_ne labels c))
              (where_eq labels c)) as (ts & Hts & Hall).
  { intros an Han. apply hardest_Ok; [|done].
    apply other_member; [apply NoDup_where_eq|done]. }
  exists ts. split; [done|]. left. done.
Qed.

Lemma class_triplets_anchor (labels : list Z) (c : Z) (ts : list triplet) (t : triplet) :
  class_triplets dle dist_mat labels c = Ok ts → t ∈ ts → labels !! anchor t = Some c.
Proof.
  intros Hts Ht. destruct (class_triplets_Ok labels c) as (ts' & Hts' & Hcase).
  rewrite Hts in Hts'. injection Hts' as <-.
  destruct Hcase as [[_ Hall]|[_ ->]]; [|by apply elem_of_nil in Ht].
  apply list_elem_of_lookup_1 in Ht as [k Hk].
  destruct (Forall2_lookup_r _ _ _ _ _ Hall Hk) as (an & Han & Hof).
  rewrite (hardest_of_anchor _ _ _ _ Hof).
  eapply elem_of_where_eq, list_elem_of_lookup_2, Han.
Qed.

Lemma filter_anchor_Forall2 (P : nat → triplet → Prop) (xs : list nat)
      (ts : list triplet) (a : nat) :
  (∀ x t, P x t → anchor t = x) → NoDup xs → Forall2 P xs ts →
  (a ∈ xs → ∃ t, List.filter (λ t, anchor t =? a) ts = [t] ∧ P a t) ∧
  (a ∉ xs → List.filter (λ t, anchor t =? a) ts = []).
Proof.
  intros HP Hnd Hall. induction Hall as [|x t xs ts Hxt Hall IH]; [split; [by intros ?%elem_of_nil|done]|].
  apply NoDup_cons in Hnd as [Hx Hnd]. destruct (IH Hnd) as [IHin IHout].
  cbn [List.filter]. rewrite (HP x t Hxt).
  destruct (Nat.eqb_spec x a) as [->|Hxa].
  - split; [|by intros []%not_elem_of_cons].
    intros _. exists t. by rewrite IHout.
  - split.
    + intros [?|Ha]%elem_of_cons; [congruence|by apply IHin].
    + intros [_ Ha]%not_elem_of_cons. by apply IHout.
Qed.

(** The triplets with the anchor [a], a row of class [c], are those the
    iteration for [c] produced. *)
Lemma filter_anchor_classes (labels : list Z) (classes : list Z)
      (per_class : list (list triplet)) (a : nat) (c : Z) (tsc : list triplet) :
  labels !! a = Some c → NoDup classes →
  Forall2 (λ c ts, class_triplets dle dist_mat labels c = Ok ts) classes per_class →
  class_triplets dle dist_mat labels c = Ok tsc →
  List.filter (λ t, anchor t =? a) (List.concat per_class) =
    if decide (c ∈ classes) then List.filter (λ t, anchor t =? a) tsc else [].
Proof.
  intros Ha Hnd Hall Htsc. induction Hall as [|c' ts' classes per_class Hc' Hall IH].
  { by rewrite decide_False by apply not_elem_of_nil. }
  apply NoDup_cons in Hnd as [Hc'nin Hnd].
  cbn [List.concat]. rewrite List.filter_app, (IH Hnd).
  destruct (decide (c' = c)) as [->|Hne].
  - rewrite Htsc in Hc'. injection Hc' as <-.
    rewrite decide_False by done. rewrite decide_True by (by left).
    by rewrite app_nil_r.
  - assert (Hnone : List.filter (λ t, anchor t =? a) ts' = []).
    { apply elem_of_nil_inv. intros t [Ht Hat]%elem_of_List_filter.
      apply Nat.eqb_eq in Hat. subst a.
      pose proof (class_triplets_anchor _ _ _ _ Hc' Ht). congruence. }
    rewrite Hnone. cbn [app].
    destruct (decide (c ∈ classes)) as [Hin|Hnin].
    + by rewrite decide_True by (by right).
    + rewrite decide_False; [done|]. intros [?|?]%elem_of_cons; congruence.
Qed.

(** The whole loop, for the classes visited in any order. *)
Lemma batch_hard_over_spec (classes : list Z) (labels : list Z) :
  NoDup classes → (∀ c, c ∈ classes ↔ c ∈ labels) →
  ∃ ts, batch_hard_over dle classes dist_mat labels = Ok ts ∧
    ∀ a c, labels !! a = Some c →
      ((∃ a', a' ≠ a ∧ labels !! a' = Some c) →
       (∃ m c', labels !! m = Some c' ∧ c' ≠ c) →
       ∃ p n, List.filter (λ t, anchor t =? a) ts = [(a, p, n)] ∧
              labels !! p = Some c ∧ p ≠ a ∧
              (∃ c', labels !! n = Some c' ∧ c' ≠ c) ∧
              (∀ q, labels !! q = Some c → q ≠ a →
                    dle (dist_mat a q) (dist_mat a p) = true) ∧
              (∀ m c', labels !! m = Some c' → c' ≠ c →
                       dle (dist_mat a n) (dist_mat a m) = true)) ∧
      (¬ (∃ a', a' ≠ a ∧ labels !! a' = Some c) ∨
       ¬ (∃ m c', labels !! m = Some c' ∧ c' ≠ c) →
       List.filter (λ t, anchor t =? a) ts = []).
Proof.
  intros Hnd Hclasses.
  destruct (traverse_Ok_Forall2 (class_triplets dle dist_mat labels)
              (λ c ts, class_triplets dle dist_mat labels c = Ok ts) classes)
    as (per_class & Hper & Hall).
  { intros c _. destruct (class_triplets_Ok labels c) as (ts & Hts & _). by exists ts. }
  exists (List.concat per_class). split.
  { unfold batch_hard_over. by rewrite Hper. }
  intros a c Ha.
  destruct (class_triplets_Ok labels c) as (tsc & Htsc & Hcase).
  rewrite (filter_anchor_classes labels classes per_class a c tsc Ha Hnd Hall Htsc).
  rewrite decide_True by (by eapply Hclasses, list_elem_of_lookup_2).
  assert (Hain : a ∈ where_eq labels c) by (by apply elem_of_where_eq).
  destruct Hcase as [[[Hlen Hne] Hof]|[Hdeg ->]].
  - destruct (filter_anchor_Forall2 _ _ _ a (hardest_of_anchor _ _) (NoDup_where_eq labels c) Hof)
      as [Hin _].
    destruct (Hin Hain) as (t & Ht & p & n & -> & Hp & Hpa & Hn & Hmax & Hmin).
    split.
    + intros _ _. exists p, n. split_and!; [done| by apply elem_of_where_eq | done
        | by apply elem_of_where_ne | |].
      * intros q Hq Hqa. apply Hmax; [by apply elem_of_where_eq|done].
      * intros m c' Hm Hc'. apply Hmin. apply elem_of_where_ne. by exists c'.
    + intros [Hno|Hno]; exfalso; apply Hno.
      * destruct (other_member (where_eq labels c) a (NoDup_where_eq labels c) Hlen)
          as (y & Hy & Hya).
        exists y. split; [done|]. by apply elem_of_where_eq.
      * destruct (where_ne labels c) as [|m l] eqn:Hw; [done|].
        assert (Hm : m ∈ where_ne labels c) by (rewrite Hw; by left).
        apply elem_of_where_ne in Hm as (c' & Hm & Hc'). by exists m, c'.
  - split; [|done]. intros (a' & Ha' & Hl') (m & c' & Hm & Hc'). exfalso. apply Hdeg. split.
    + apply (two_distinct_length _ a' a); [by apply elem_of_where_eq|done|done].
    + intros Hnil. assert (Hin : m ∈ where_ne labels c) by (apply elem_of_where_ne; by exists c').
      rewrite Hnil in Hin. by apply elem_of_nil in Hin.
Qed.

Lemma batch_hard_over_anchor (classes : list Z) (labels : list Z)
      (ts : list triplet) (t : triplet) :
  batch_hard_over dle classes dist_mat labels = Ok ts → t ∈ ts →
  ∃ c, c ∈ classes ∧ labels !! anchor t = Some c.
Proof.
  unfold batch_hard_over.
  destruct (traverse _ classes) as [per_class|e] eqn:Hper; [|done].
  rewrite bind_Ok. intros [= <-] Ht.
  apply list_elem_of_In, in_concat in Ht as (tsc & Htsc & Ht).
  apply list_elem_of_In, list_elem_of_lookup_1 in Htsc as [k Hk].
  apply traverse_Forall2 in Hper.
  destruct (Forall2_lookup_r _ _ _ _ _ Hper Hk) as (c & Hc & Hcls).
  exists c. split; [by eapply list_elem_of_lookup_2|].
  eapply class_triplets_anchor; [done|]. by apply list_elem_of_In.
Qed.

End BatchHard.

(** Batches with a single label, or with labels that are all distinct. *)

Lemma class_triplets_degenerate {D : Type} (dle : D → D → bool)
      (dist_mat : nat → nat → D) (labels : list Z) (c : Z) :
  length (Selector.where_eq labels c) < 2 ∨ Selector.where_ne labels c = [] →
  Selector.class_triplets dle dist_mat labels c = Ok [].
Proof.
  intros Hdeg. unfold Selector.class_triplets. cbv zeta.
  destruct (Nat.ltb_spec (length (Selector.where_eq labels c)) 2); [done|].
  destruct Hdeg as [Hlt | ->]; [lia|done].
Qed.

Lemma get_batch_hard_triplets_degenerate {D : Type} (dle : D → D → bool)
      (dist_mat : nat → nat → D) (labels : list Z) :
  (∀ i j ci cj, labels !! i = Some ci → labels !! j = Some cj → ci = cj) ∨ NoDup labels →
  Selector.get_batch_hard_triplets dle dist_mat labels = Ok [].
Proof.
  intros Hdeg. unfold Selector.get_batch_hard_triplets, Selector.batch_hard_over.
  rewrite (traverse_total _ (λ _, [])).
  - rewrite bind_Ok. f_equal. induction (remove_dups labels); [done|by cbn].
  - intros c Hc. apply class_triplets_degenerate. destruct Hdeg as [Hsame|Hnd].
    + right. apply elem_of_nil_inv. intros m (c' & Hm & Hne)%elem_of_where_ne.
      apply (proj1 (elem_of_remove_dups _ _)), list_elem_of_lookup_1 in Hc as [k Hk].
      apply Hne. exact (Hsame m k c' c Hm Hk).
    + left. destruct (decide (length (Selector.where_eq labels c) < 2)) as [|Hge]; [done|].
      exfalso. destruct (Selector.where_eq labels c) as [|a l] eqn:Hw; [cbn in Hge; lia|].
      destruct (other_member (a :: l) a) as (y & Hy & Hya);
        [rewrite <- Hw; apply NoDup_where_eq|lia|].
      rewrite <- Hw in Hy. apply elem_of_where_eq in Hy.
      assert (Ha : a ∈ Selector.where_eq labels c) by (rewrite Hw; by left).
      apply elem_of_where_eq in Ha.
      apply Hya. exact (NoDup_lookup _ _ _ _ Hnd Hy Ha).
Qed.

(** C3: [get_batch_hard_triplets] returns (it raises no error), every
    triplet it returns has a row of the batch as its anchor, and for every
    row [a], of class [c]: when [c] has another member and some row has a
    different label, exactly one returned triplet has the anchor [a], and
    in it the positive is a member of [c] other than [a] at the largest
    distance from [a] among those, and the negative is a row of another
    label at the smallest distance from [a] among those; when [c] has no
    other member, or no row has a different label, no returned triplet has
    the anchor [a]. *)
Theorem batch_hard_one_triplet_per_anchor {D : Type} (dle : D → D → bool)
        (dist_mat : nat → nat → D) (labels : list Z) :
  (∀ x y, dle x y = true ∨ dle y x = true) →
  (∀ x y z, dle x y = true → dle y z = true → dle x z = true) →
  ∃ ts, Selector.get_batch_hard_triplets dle dist_mat labels = Ok ts ∧
    (∀ t, t ∈ ts → Selector.anchor t < length labels) ∧
    ∀ a c, labels !! a = Some c →
      ((∃ a', a' ≠ a ∧ labels !! a' = Some c) →
       (∃ m c', labels !! m = Some c' ∧ c' ≠ c) →
       ∃ p n, List.filter (λ t, Selector.anchor t =? a) ts = [(a, p, n)] ∧
              labels !! p = Some c ∧ p ≠ a ∧
              (∃ c', labels !! n = Some c' ∧ c' ≠ c) ∧
              (∀ q, labels !! q = Some c → q ≠ a →
                    dle (dist_mat a q) (dist_mat a p) = true) ∧
              (∀ m c', labels !! m = Some c' → c' ≠ c →
                       dle (dist_mat a n) (dist_mat a m) = true)) ∧
      (¬ (∃ a', a' ≠ a ∧ labels !! a' = Some c) ∨
       ¬ (∃ m c', labels !! m = Some c' ∧ c' ≠ c) →
       List.filter (λ t, Selector.anchor t =? a) ts = []).
Proof.
  intros Htotal Htrans.
  destruct (batch_hard_over_spec dle Htotal Htrans dist_mat (remove_dups labels) labels)
    as (ts & Hts & Hspec).
  { apply NoDup_remove_dups. }
  { intros c. apply elem_of_remove_dups. }
  exists ts. split; [done|]. split; [|done].
  intros t Ht. destruct (batch_hard_over_anchor dle Htotal Htrans dist_mat _ _ _ _ Hts Ht)
    as (c & _ & Hc).
  by apply lookup_lt_Some in Hc.
Qed.

Lemma batch_hard_one_triplet_per_anchor_witness :
  ∃ ts, Selector.get_batch_hard_triplets Z.leb Selector.example_dist [0; 0; 0; 1; 1]%Z = Ok ts ∧
    (∀ t, t ∈ ts → Selector.anchor t < length [0; 0; 0; 1; 1]%Z) ∧
    ∀ a c, [0; 0; 0; 1; 1]%Z !! a = Some c →
      ((∃ a', a' ≠ a ∧ [0; 0; 0; 1; 1]%Z !! a' = Some c) →
       (∃ m c', [0; 0; 0; 1; 1]%Z !! m = Some c' ∧ c' ≠ c) →
       ∃ p n, List.filter (λ t, Selector.anchor t =? a) ts = [(a, p, n)] ∧
              [0; 0; 0; 1; 1]%Z !! p = Some c ∧ p ≠ a ∧
              (∃ c', [0; 0; 0; 1; 1]%Z !! n = Some c' ∧ c' ≠ c) ∧
              (∀ q, [0; 0; 0; 1; 1]%Z !! q = Some c → q ≠ a →
                    Z.leb (Selector.example_dist a q) (Selector.example_dist a p) = true) ∧
              (∀ m c', [0; 0; 0; 1; 1]%Z !! m = Some c' → c' ≠ c →
                       Z.leb (Selector.example_dist a n) (Selector.example_dist a m) = true)) ∧
      (¬ (∃ a', a' ≠ a ∧ [0; 0; 0; 1; 1]%Z !! a' = Some c) ∨
       ¬ (∃ m c', [0; 0; 0; 1; 1]%Z !! m = Some c' ∧ c' ≠ c) →
       List.filter (λ t, Selector.anchor t =? a) ts = []).
Proof.
  apply (batch_hard_one_triplet_per_anchor Z.leb Selector.example_dist [0; 0; 0; 1; 1]%Z).
  - intros x y. rewrite !Z.leb_le. lia.
  - intros x y z. rewrite !Z.leb_le. lia.
Defined.

(** ** regularization.py *)

(** C8: [after_losses] of [WeightRegularization] and of
    [ActivationRegularization] raises the assertion failure exactly when the
    configured loss name is not a key of the losses, and raises nothing
    else; when the key is there it returns the losses with that entry
    replaced by its old value plus the product of lambda and the
    regularization term (the sum of the regularizer over the parameters,
    resp. the regularizer of the stored activation, which is the left
    factor there), and with every other key as it was. *)
Theorem after_losses_precondition {T P A : Type} (tadd tmul : T → T → T) (tzero : T)
        (wr : Regularization.WeightRegularization (T := T) (P := P))
        (ar : Regularization.ActivationRegularization (T := T) (A := A))
        (parameters : list P) (losses : gmap string T) (train : bool) :
  let wr_result := Regularization.weight_after_losses tadd tmul tzero wr parameters losses train in
  let ar_result := Regularization.activation_after_losses tadd tmul ar losses train in
  let reg := foldl (λ reg p, tadd reg (Regularization.wr_regularizer wr p)) tzero parameters in
  ((∃ e, wr_result = Raise e) ↔ losses !! Regularization.wr_loss_name wr = None) ∧
  (∀ e, wr_result = Raise e → e = AssertionError) ∧
  (∀ l, losses !! Regularization.wr_loss_name wr = Some l →
        ∃ losses', wr_result = Ok losses' ∧
          losses' !! Regularization.wr_loss_name wr
            = Some (tadd l (tmul (Regularization.wr_lambd wr) reg)) ∧
          ∀ k, k ≠ Regularization.wr_loss_name wr → losses' !! k = losses !! k) ∧
  ((∃ e, ar_result = Raise e) ↔ losses !! Regularization.ar_loss_name ar = None) ∧
  (∀ e, ar_result = Raise e → e = AssertionError) ∧
  (∀ l, losses !! Regularization.ar_loss_name ar = Some l →
        ∃ losses' ar', ar_result = Ok (losses', ar') ∧
          losses' !! Regularization.ar_loss_name ar
            = Some (tadd l (tmul (Regularization.ar_regularizer ar
                                    (Regularization.store (Regularization.ar_hook ar)))
                                 (Regularization.ar_lambd ar))) ∧
          (∀ k, k ≠ Regularization.ar_loss_name ar → losses' !! k = losses !! k) ∧
          Regularization.store (Regularization.ar_hook ar') = None).
Proof.
  cbv zeta. unfold Regularization.weight_after_losses, Regularization.activation_after_losses.
  split_and!.
  - destruct (losses !! _); split; [by intros [e ?]|done|done|by exists AssertionError].
  - intros e. destruct (losses !! _); congruence.
  - intros l ->. eexists. split; [done|]. split; [apply lookup_insert_eq|].
    intros k Hk. by apply lookup_insert_ne.
  - destruct (losses !! _); split; [by intros [e ?]|done|done|by exists AssertionError].
  - intros e. destruct (losses !! _); congruence.
  - intros l ->. eexists _, _. split; [done|]. split; [apply lookup_insert_eq|].
    split; [|done]. intros k Hk. by apply lookup_insert_ne.
Qed.

Example weight_after_losses_example :
  Regularization.weight_after_losses Z.add Z.mul 0%Z
    {| Regularization.wr_loss_name := "loss";
       Regularization.wr_regularizer := λ p : Z, (p * p)%Z;
       Regularization.wr_lambd := 2%Z |}
    [1; 2; 3]%Z {[ "loss" := 10%Z; "aux" := 7%Z ]} true
  = Ok {[ "loss" := 38%Z; "aux" := 7%Z ]}.
Proof. by vm_compute. Qed.

(** ** swa.py *)

Section Averaging.
Import SWA.
Context {T : Type}.
Context (tadd : T → T → T) (tscale : Z → T → T) (tdiv : T → Z → T).

(** One pass over the parameters of the trained model: an averaged
    parameter with the name of a trained one takes the running mean, the
    others stay, and no name is added. *)
Lemma average_into_lookup (n_model : Z) (w1 : list (string * T))
      (d : gmap string T) (name : string) :
  NoDup w1.*1 →
  average_into tadd tscale tdiv n_model w1 d !! name =
    (λ avg, from_option (λ cur, running_mean tadd tscale tdiv n_model cur avg) avg
                        ((list_to_map w1 : gmap string T) !! name)) <$> d !! name.
Proof.
  revert d. induction w1 as [|[name1 param1] w1 IH]; intros d Hnd.
  - cbn. rewrite lookup_empty. cbn. by destruct (d !! name).
  - cbn in Hnd. apply NoDup_cons in Hnd as [Hname1 Hnd].
    unfold average_into in *. cbn [foldl]. rewrite IH by done. clear IH.
    cbn [list_to_map foldr]. destruct (decide (name = name1)) as [->|Hne].
    + rewrite lookup_insert_eq, (not_elem_of_list_to_map_1 _ _ Hname1). cbn.
      destruct (d !! name1) as [avg|] eqn:Hd.
      * by rewrite lookup_insert_eq.
      * by rewrite Hd.
    + rewrite lookup_insert_ne by done.
      destruct (d !! name1) as [avg|] eqn:Hd; [|done].
      by rewrite lookup_insert_ne by done.
Qed.

(** The body of the two hooks, case by case. *)
Lemma update_cases (self : StochasticWeightAveraging (T := T)) (key : string)
      (logs : gmap string Z) :
  match logs !! key with
  | None => update tadd tscale tdiv self key logs = (Raise KeyError, self)
  | Some counter =>
      if decide (counter < _average_after self)%Z
      then update tadd tscale tdiv self key logs = (Ok (), self)
      else if decide (_update_every self = 0)%Z
      then update tadd tscale tdiv self key logs = (Raise ZeroDivisionError, self)
      else if decide (counter `mod` _update_every self = 0)%Z
      then update tadd tscale tdiv self key logs =
             (match other_state_keys self with [] => Ok () | _ :: _ => Raise RuntimeError end,
              with_model_swa self
                (average_into tadd tscale tdiv
                   ((counter - _average_after self) `div` _update_every self)%Z
                   (_model self) (model_swa self)))
      else update tadd tscale tdiv self key logs = (Ok (), self)
  end.
Proof.
  unfold update. destruct (logs !! key) as [counter|]; [|done].
  destruct (Z.ltb_spec counter (_average_after self)).
  { by rewrite decide_True by lia. }
  rewrite decide_False by lia.
  destruct (Z.eqb_spec (_update_every self) 0).
  { by rewrite decide_True by lia. }
  rewrite decide_False by lia.
  destruct (Z.eqb_spec (counter `mod` _update_every self) 0); cbn [negb].
  - by rewrite decide_True by lia.
  - by rewrite decide_False by lia.
Qed.

Lemma hook_of_update (ts : timescale) (self : StochasticWeightAveraging (T := T))
      (logs : gmap string Z) :
  hook_of tadd tscale tdiv ts self logs =
    if decide (_timescale self = ts)
    then update tadd tscale tdiv self (counter_of ts) logs
    else (Ok (), self).
Proof.
  unfold hook_of, on_epoch_end, on_batch_end.
  destruct ts, (_timescale self) eqn:Hts; cbn; try done.
  by destruct (update _ _ _ _ _ _) as [[[]|e] self'].
Qed.

Lemma on_epoch_end_false (self : StochasticWeightAveraging (T := T))
      (logs : gmap string Z) (stop : bool) :
  (on_epoch_end tadd tscale tdiv self logs).1 = Ok stop → stop = false.
Proof.
  unfold on_epoch_end. destruct (_timescale self); [|by intros [= <-]].
  destruct (update _ _ _ _ _ _) as [[[]|e] self']; cbn; [by intros [= <-]|done].
Qed.

(** The callback an update leaves behind. *)
Lemma updated_parameters (self : StochasticWeightAveraging (T := T)) (n_model : Z) :
  NoDup (_model self).*1 →
  let self' := with_model_swa self
                 (average_into tadd tscale tdiv n_model (_model self) (model_swa self)) in
  (∀ name cur avg, (name, cur) ∈ _model self →
     model_swa self !! name = Some avg →
     model_swa self' !! name = Some (tdiv (tadd cur (tscale n_model avg)) (n_model + 1)%Z)) ∧
  (∀ name, name ∉ (_model self).*1 → model_swa self' !! name = model_swa self !! name) ∧
  (∀ name, model_swa self !! name = None → model_swa self' !! name = None).
Proof.
  intros Hnd. cbn. split_and!.
  - intros name cur avg Hin Havg.
    rewrite average_into_lookup, Havg by done. cbn.
    by rewrite (elem_of_list_to_map_1 _ _ _ Hnd Hin).
  - intros name Hname. rewrite average_into_lookup by done.
    rewrite (not_elem_of_list_to_map_1 _ _ Hname). cbn.
    by destruct (model_swa self !! name).
  - intros name Hnone. by rewrite average_into_lookup, Hnone by done.
Qed.

End Averaging.

(** C9: the hook of a timescale ([on_epoch_end] for epochs, [on_batch_end]
    for iterations) returns and leaves the callback as it is when the
    callback is configured for the other timescale; it changes the callback
    only when the counter of its timescale is at least [average_after] and
    divisible by [update_every]; and on each such call it leaves the
    callback with every averaged parameter that has the name of a trained
    parameter replaced by (current + n_model * averaged) / (n_model + 1),
    where n_model = (counter - average_after) // update_every is computed
    from the counter of this call, the other averaged parameters and the
    configuration being kept and no parameter being added.  After that
    update the hook returns when the state dict of the averaged model has
    no key besides its parameters, and raises RuntimeError from
    [load_state_dict] when it has.  [on_epoch_end] answers false whenever
    it returns. *)
Theorem swa_running_mean {T : Type} (tadd : T → T → T) (tscale : Z → T → T)
        (tdiv : T → Z → T) (self : SWA.StochasticWeightAveraging (T := T))
        (logs : gmap string Z) (ts : SWA.timescale) :
  NoDup (SWA._model self).*1 →
  (SWA._timescale self ≠ ts → SWA.hook_of tadd tscale tdiv ts self logs = (Ok (), self)) ∧
  ((SWA.hook_of tadd tscale tdiv ts self logs).2 ≠ self →
     SWA._timescale self = ts ∧
     ∃ counter, logs !! SWA.counter_of ts = Some counter ∧
                (SWA._average_after self ≤ counter)%Z ∧
                (SWA._update_every self ≠ 0)%Z ∧
                (counter `mod` SWA._update_every self = 0)%Z) ∧
  (∀ counter, SWA._timescale self = ts →
     logs !! SWA.counter_of ts = Some counter →
     (SWA._average_after self ≤ counter)%Z →
     (SWA._update_every self ≠ 0)%Z →
     (counter `mod` SWA._update_every self = 0)%Z →
     ∃ self' n_model,
       (SWA.hook_of tadd tscale tdiv ts self logs).2 = self' ∧
       n_model = ((counter - SWA._average_after self) `div` SWA._update_every self)%Z ∧
       (SWA.hook_of tadd tscale tdiv ts self logs).1
         = match SWA.other_state_keys self with
           | [] => Ok ()
           | _ :: _ => Raise RuntimeError
           end ∧
       SWA._model self' = SWA._model self ∧
       SWA.other_state_keys self' = SWA.other_state_keys self ∧
       SWA._update_every self' = SWA._update_every self ∧
       SWA._average_after self' = SWA._average_after self ∧
       SWA._timescale self' = SWA._timescale self ∧
       (∀ name cur avg, (name, cur) ∈ SWA._model self →
          SWA.model_swa self !! name = Some avg →
          SWA.model_swa self' !! name
            = Some (tdiv (tadd cur (tscale n_model avg)) (n_model + 1)%Z)) ∧
       (∀ name, name ∉ (SWA._model self).*1 →
          SWA.model_swa self' !! name = SWA.model_swa self !! name) ∧
       (∀ name, SWA.model_swa self !! name = None → SWA.model_swa self' !! name = None)) ∧
  (∀ stop, (SWA.on_epoch_end tadd tscale tdiv self logs).1 = Ok stop → stop = false).
Proof.
  intros Hnd. rewrite hook_of_update.
  pose proof (update_cases tadd tscale tdiv self (SWA.counter_of ts) logs) as Hupd.
  split_and!.
  - intros Hts. by rewrite decide_False.
  - intros Hne. destruct (decide (SWA._timescale self = ts)) as [Hts|Hts]; [|done].
    split; [done|].
    destruct (logs !! SWA.counter_of ts) as [counter|]; [|by rewrite Hupd in Hne].
    exists counter. split; [done|].
    repeat case_decide; rewrite Hupd in Hne; try done. lia.
  - intros counter Hts Hlog Hge Hnz Hdiv. rewrite (decide_True _ _ Hts).
    rewrite Hlog in Hupd. rewrite decide_False in Hupd by lia.
    rewrite decide_False, decide_True in Hupd by done.
    rewrite Hupd. eexists _, _. split; [done|]. split; [done|]. cbn [fst snd].
    split; [done|]. cbn.
    destruct (updated_parameters tadd tscale tdiv self
                ((counter - SWA._average_after self) `div` SWA._update_every self)%Z Hnd)
      as (Hshared & Hother & Hnone).
    split_and!; done.
  - intros stop Hend. by eapply on_epoch_end_false.
Qed.

Lemma swa_running_mean_witness :
  (SWA._timescale SWA.example_swa ≠ SWA.Iter →
   SWA.hook_of Z.add Z.mul Z.div SWA.Iter SWA.example_swa SWA.example_logs
   = (Ok (), SWA.example_swa)) ∧
  ((SWA.hook_of Z.add Z.mul Z.div SWA.Iter SWA.example_swa SWA.example_logs).2
     ≠ SWA.example_swa →
     SWA._timescale SWA.example_swa = SWA.Iter ∧
     ∃ counter, SWA.example_logs !! SWA.counter_of SWA.Iter = Some counter ∧
                (SWA._average_after SWA.example_swa ≤ counter)%Z ∧
                (SWA._update_every SWA.example_swa ≠ 0)%Z ∧
                (counter `mod` SWA._update_every SWA.example_swa = 0)%Z) ∧
  (∀ counter, SWA._timescale SWA.example_swa = SWA.Iter →
     SWA.example_logs !! SWA.counter_of SWA.Iter = Some counter →
     (SWA._average_after SWA.example_swa ≤ counter)%Z →
     (SWA._update_every SWA.example_swa ≠ 0)%Z →
     (counter `mod` SWA._update_every SWA.example_swa = 0)%Z →
     ∃ self' n_model,
       (SWA.hook_of Z.add Z.mul Z.div SWA.Iter SWA.example_swa SWA.example_logs).2 = self' ∧
       n_model = ((counter - SWA._average_after SWA.example_swa)
                    `div` SWA._update_every SWA.example_swa)%Z ∧
       (SWA.hook_of Z.add Z.mul Z.div SWA.Iter SWA.example_swa SWA.example_logs).1
         = match SWA.other_state_keys SWA.example_swa with
           | [] => Ok ()
           | _ :: _ => Raise RuntimeError
           end ∧
       SWA._model self' = SWA._model SWA.example_swa ∧
       SWA.other_state_keys self' = SWA.other_state_keys SWA.example_swa ∧
       SWA._update_every self' = SWA._update_every SWA.example_swa ∧
       SWA._average_after self' = SWA._average_after SWA.example_swa ∧
       SWA._timescale self' = SWA._timescale SWA.example_swa ∧
       (∀ name cur avg, (name, cur) ∈ SWA._model SWA.example_swa →
          SWA.model_swa SWA.example_swa !! name = Some avg →
          SWA.model_swa self' !! name
            = Some ((cur + n_model * avg) `div` (n_model + 1))%Z) ∧
       (∀ name, name ∉ (SWA._model SWA.example_swa).*1 →
          SWA.model_swa self' !! name = SWA.model_swa SWA.example_swa !! name) ∧
       (∀ name, SWA.model_swa SWA.example_swa !! name = None →
          SWA.model_swa self' !! name = None)) ∧
  (∀ stop, (SWA.on_epoch_end Z.add Z.mul Z.div SWA.example_swa SWA.example_logs).1
           = Ok stop → stop = false).
Proof.
  apply (swa_running_mean Z.add Z.mul Z.div SWA.example_swa SWA.example_logs SWA.Iter).
  cbn. apply NoDup_cons. split; [|apply NoDup_singleton].
  by intros [=]%list_elem_of_singleton.
Defined.

Example on_batch_end_example :
  SWA.on_batch_end Z.add Z.mul Z.div SWA.example_swa SWA.example_logs
  = (Ok (), SWA.with_model_swa SWA.example_swa {[ "w" := 4%Z; "v" := 9%Z ]}).
Proof. by vm_compute. Qed.

Example on_batch_end_buffers_example :
  SWA.on_batch_end Z.add Z.mul Z.div SWA.example_swa_bn SWA.example_logs
  = (Raise RuntimeError, SWA.with_model_swa SWA.example_swa_bn {[ "w" := 4%Z; "v" := 9%Z ]}).
Proof. by vm_compute. Qed.

Example on_epoch_end_example :
  SWA.on_epoch_end Z.add Z.mul Z.div SWA.example_swa SWA.example_logs
  = (Ok false, SWA.example_swa).
Proof. reflexivity. Qed.

(** ** supervised.py *)

Section LearnOneIter.
Import Learner.
Context {Tensor World : Type}.
Implicit Types (self : learner Tensor World) (w : World) (images labels : Tensor).

(** A run that reaches the gates, from what the collaborators hand back
    one after the other: the world it ends in and the calls it makes. *)
Lemma learn_one_iter_run self images labels w (tr : list (event Tensor))
      (data : gmap string Tensor) (w1 : World) (images1 labels1 images2 labels2 : Tensor)
      (w2 : World) (raw : Tensor) (w3 : World) (losses : gmap string Tensor) (w4 : World)
      (loss : Tensor) (b1 : bool) (w5 : World) (b2 : bool) (w7 : World) (b3 : bool)
      (w9 : World) :
  cb_on_batch_begin (_collab self) {[ "inputs" := images; "labels" := labels ]} true w
    = (data, w1) →
  data !! "inputs" = Some images1 →
  data !! "labels" = Some labels1 →
  (if _mixup self then transform_data (_collab self) images1 labels1 w1
   else ((images1, labels1), w1)) = ((images2, labels2), w2) →
  compute_loss (_collab self) images2 labels2 true w2 = (raw, w3) →
  cb_after_losses (_collab self) {[ "loss" := raw ]} true w3 = (losses, w4) →
  losses !! "loss" = Some loss →
  cb_on_backward_begin (_collab self) w4 = (b1, w5) →
  cb_after_backward (_collab self) (if b1 then backward (_collab self) loss w5 else w5)
    = (b2, w7) →
  cb_after_step (_collab self) (optimizer_step (_collab self) w7) = (b3, w9) →
  let w10 := if b3 then optimizer_zero_grad (_collab self) w9 else w9 in
  let mem := memory_allocated (_collab self) w10 in
  learn_one_iter self images labels (w, tr)
  = (Ok (),
     (if b2 then cb_on_batch_end (_collab self) (batch_end_logs self loss mem) w10 else w7,
      tr ++ calls_to_loss self ++ calls_gated self b1 b2 b3 loss mem)).
Proof.
  intros Hbegin Hinputs Hlabels Hmix Hraw Hlosses Hloss Hb1 Hb2 Hb3. cbv zeta.
  unfold learn_one_iter, calls_to_loss, calls_gated, calls_batch_end, batch_end_logs.
  unfold pbind, call, exec, getitem, when, pret, praise.
  rewrite Hbegin, Hinputs, Hlabels.
  destruct (_mixup self); [rewrite Hmix|injection Hmix as <- <- <-];
    rewrite Hraw, Hlosses, Hloss, Hb1;
    destruct b1; cbn; rewrite Hb2; destruct b2; cbn; try (by rewrite <- !app_assoc);
    rewrite Hb3; destruct b3; cbn; destruct (_device self); cbn; by rewrite <- !app_assoc.
Qed.

End LearnOneIter.

(** Membership of a call in an explicit list of calls is settled by
    walking the list. *)
Local Ltac is_member :=
  solve [repeat first [apply list_elem_of_here | apply list_elem_of_further]].

Local Ltac no_member :=
  let H := fresh "H" in
  intros H;
  repeat (apply elem_of_cons in H as [H|H]; [discriminate H|]);
  by apply elem_of_nil in H.

(** C4: take a run of [learn_one_iter] that reaches the gates, with [loss]
    the loss that the [after_losses] dispatch handed back, and let the
    control dispatches answer [b1] ([on_backward_begin]), [b2]
    ([after_backward]) and [b3] ([after_step]).  The backward pass of
    [loss] is executed iff [b1] is true: [after_backward] is dispatched on
    the world [backward] left, or else on the world [on_backward_begin]
    left.  The optimizer step is executed iff [b2] is true: then
    [after_step] is dispatched on the world the step left, the gradients
    are zeroed iff [b3] is true, and [on_batch_end] is dispatched on the
    resulting world; or else the run ends in the world [after_backward]
    left.  The calls are made in the order of [calls_gated], each gated
    action once and directly behind its gate. *)
Theorem learn_one_iter_gates {Tensor World : Type} (self : Learner.learner Tensor World)
        (images labels : Tensor) (w : World)
        (data : gmap string Tensor) (w1 : World) (images1 labels1 images2 labels2 : Tensor)
        (w2 : World) (raw : Tensor) (w3 : World) (losses : gmap string Tensor) (w4 : World)
        (loss : Tensor) (b1 : bool) (w5 : World) (b2 : bool) (w7 : World) (b3 : bool)
        (w9 : World) :
  let c := Learner._collab self in
  Learner.cb_on_batch_begin c {[ "inputs" := images; "labels" := labels ]} true w
    = (data, w1) →
  data !! "inputs" = Some images1 →
  data !! "labels" = Some labels1 →
  (if Learner._mixup self then Learner.transform_data c images1 labels1 w1
   else ((images1, labels1), w1)) = ((images2, labels2), w2) →
  Learner.compute_loss c images2 labels2 true w2 = (raw, w3) →
  Learner.cb_after_losses c {[ "loss" := raw ]} true w3 = (losses, w4) →
  losses !! "loss" = Some loss →
  Learner.cb_on_backward_begin c w4 = (b1, w5) →
  Learner.cb_after_backward c (if b1 then Learner.backward c loss w5 else w5) = (b2, w7) →
  Learner.cb_after_step c (Learner.optimizer_step c w7) = (b3, w9) →
  let w10 := if b3 then Learner.optimizer_zero_grad c w9 else w9 in
  let mem := Learner.memory_allocated c w10 in
  Learner.learn_one_iter self images labels (w, [])
  = (Ok (),
     (if b2 then Learner.cb_on_batch_end c (Learner.batch_end_logs self loss mem) w10 else w7,
      Learner.calls_to_loss self ++ Learner.calls_gated self b1 b2 b3 loss mem)) ∧
  (Learner.EvBackward ∈ Learner.calls self images labels w ↔ b1 = true) ∧
  (Learner.EvOptimizerStep ∈ Learner.calls self images labels w ↔ b2 = true) ∧
  (Learner.EvZeroGrad ∈ Learner.calls self images labels w ↔ b2 = true ∧ b3 = true).
Proof.
  intros c Hbegin Hinputs Hlabels Hmix Hraw Hlosses Hloss Hb1 Hb2 Hb3 w10 mem.
  pose proof (learn_one_iter_run self images labels w [] _ _ _ _ _ _ _ _ _ _ _ _ _ _ _ _ _ _
                Hbegin Hinputs Hlabels Hmix Hraw Hlosses Hloss Hb1 Hb2 Hb3) as Hrun.
  cbv zeta in Hrun. fold c w10 mem in Hrun. rewrite app_nil_l in Hrun.
  split; [exact Hrun|].
  unfold Learner.calls. rewrite Hrun. cbn [snd].
  unfold Learner.calls_to_loss, Learner.calls_gated, Learner.calls_batch_end.
  destruct b1, b2, b3, (Learner._mixup self), (Learner._device self); cbn [app];
    (split_and!; split;
     first [ done
           | intros _; is_member
           | intros _; split; [done|done]
           | intros [? ?]; done
           | intros [? ?]; is_member
           | by no_member
           | intros H; exfalso; revert H; no_member ]).
Qed.

Lemma learn_one_iter_gates_witness :
  Learner.learn_one_iter Learner.journal_learner 1%Z 2%Z ([], [])
  = (Ok (),
     ([("on_batch_begin", 0%Z); ("compute_loss", 3%Z); ("after_losses", 0%Z);
       ("on_backward_begin", 0%Z); ("backward", 13%Z); ("after_backward", 0%Z);
       ("step", 0%Z); ("after_step", 0%Z); ("zero_grad", 0%Z); ("on_batch_end", 13%Z)],
      Learner.calls_to_loss Learner.journal_learner
        ++ Learner.calls_gated Learner.journal_learner true true true 13%Z 9%Z)) ∧
  (Learner.EvBackward ∈ Learner.calls Learner.journal_learner 1%Z 2%Z [] ↔ true = true) ∧
  (Learner.EvOptimizerStep ∈ Learner.calls Learner.journal_learner 1%Z 2%Z [] ↔ true = true) ∧
  (Learner.EvZeroGrad ∈ Learner.calls Learner.journal_learner 1%Z 2%Z [] ↔
     true = true ∧ true = true).
Proof.
  exact (learn_one_iter_gates Learner.journal_learner 1%Z 2%Z []
           _ _ _ _ _ _ _ _ _ _ _ _ _ _ _ _ _ _
           eq_refl eq_refl eq_refl eq_refl eq_refl eq_refl eq_refl eq_refl eq_refl eq_refl).
Defined.

(** C1, as the code has it: [on_batch_end] is dispatched behind the
    [after_backward] gate.  In a run that reaches the gates and in which
    [after_backward] answers true, it is dispatched exactly once, whatever
    [on_backward_begin] and [after_step] answer, on the world left by the
    optimizer step and the (gated) zeroing of the gradients, and the run
    ends in the world it leaves; its logs hold the loss that the
    [after_losses] dispatch handed back and nothing else on a CPU device,
    and that loss moved to the CPU together with the memory allocated in
    that world on a CUDA device.  In a run in which [after_backward]
    answers false it is not dispatched, and the run ends in the world
    [after_backward] left. *)
Theorem on_batch_end_iff_step {Tensor World : Type} (self : Learner.learner Tensor World)
        (images labels : Tensor) (w : World)
        (data : gmap string Tensor) (w1 : World) (images1 labels1 images2 labels2 : Tensor)
        (w2 : World) (raw : Tensor) (w3 : World) (losses : gmap string Tensor) (w4 : World)
        (loss : Tensor) (b1 : bool) (w5 : World) (b2 : bool) (w7 : World) (b3 : bool)
        (w9 : World) :
  let c := Learner._collab self in
  Learner.cb_on_batch_begin c {[ "inputs" := images; "labels" := labels ]} true w
    = (data, w1) →
  data !! "inputs" = Some images1 →
  data !! "labels" = Some labels1 →
  (if Learner._mixup self then Learner.transform_data c images1 labels1 w1
   else ((images1, labels1), w1)) = ((images2, labels2), w2) →
  Learner.compute_loss c images2 labels2 true w2 = (raw, w3) →
  Learner.cb_after_losses c {[ "loss" := raw ]} true w3 = (losses, w4) →
  losses !! "loss" = Some loss →
  Learner.cb_on_backward_begin c w4 = (b1, w5) →
  Learner.cb_after_backward c (if b1 then Learner.backward c loss w5 else w5) = (b2, w7) →
  Learner.cb_after_step c (Learner.optimizer_step c w7) = (b3, w9) →
  let w10 := if b3 then Learner.optimizer_zero_grad c w9 else w9 in
  let run := Learner.learn_one_iter self images labels (w, []) in
  run.1 = Ok () ∧
  if b2
  then ∃ logs,
         List.filter Learner.is_on_batch_end run.2.2 = [Learner.EvOnBatchEnd logs] ∧
         run.2.1 = Learner.cb_on_batch_end c logs w10 ∧
         match Learner._device self with
         | Learner.Cuda =>
             logs = {[ "loss" := Learner.VTensor (Learner.cpu c loss);
                       "allocated_memory" := Learner.VInt (Learner.memory_allocated c w10) ]}
         | Learner.Cpu => logs = {[ "loss" := Learner.VTensor loss ]}
         end
  else List.filter Learner.is_on_batch_end run.2.2 = [] ∧ run.2.1 = w7.
Proof.
  intros c Hbegin Hinputs Hlabels Hmix Hraw Hlosses Hloss Hb1 Hb2 Hb3 w10 run.
  pose proof (learn_one_iter_run self images labels w [] _ _ _ _ _ _ _ _ _ _ _ _ _ _ _ _ _ _
                Hbegin Hinputs Hlabels Hmix Hraw Hlosses Hloss Hb1 Hb2 Hb3) as Hrun.
  cbv zeta in Hrun. fold c w10 run in Hrun. rewrite app_nil_l in Hrun.
  rewrite Hrun. cbn [fst snd]. split; [done|].
  unfold Learner.calls_to_loss, Learner.calls_gated, Learner.calls_batch_end,
    Learner.batch_end_logs.
  destruct b2.
  - exists (Learner.batch_end_logs self loss (Learner.memory_allocated c w10)).
    unfold Learner.batch_end_logs. split_and!.
    + destruct b1, b3, (Learner._mixup self), (Learner._device self); reflexivity.
    + destruct (Learner._device self); reflexivity.
    + destruct (Learner._device self); reflexivity.
  - split; [|done]. by destruct b1, (Learner._mixup self).
Qed.

Lemma on_batch_end_iff_step_witness :
  let run := Learner.learn_one_iter Learner.journal_learner 1%Z 2%Z ([], []) in
  run.1 = Ok () ∧
  ∃ logs,
    List.filter Learner.is_on_batch_end run.2.2 = [Learner.EvOnBatchEnd logs] ∧
    run.2.1 = Learner.cb_on_batch_end Learner.journal_collaborators logs
                [("on_batch_begin", 0%Z); ("compute_loss", 3%Z); ("after_losses", 0%Z);
                 ("on_backward_begin", 0%Z); ("backward", 13%Z); ("after_backward", 0%Z);
                 ("step", 0%Z); ("after_step", 0%Z); ("zero_grad", 0%Z)] ∧
    logs = {[ "loss" := Learner.VTensor 13%Z; "allocated_memory" := Learner.VInt 9%Z ]}.
Proof.
  exact (on_batch_end_iff_step Learner.journal_learner 1%Z 2%Z []
           _ _ _ _ _ _ _ _ _ _ _ _ _ _ _ _ _ _
           eq_refl eq_refl eq_refl eq_refl eq_refl eq_refl eq_refl eq_refl eq_refl eq_refl).
Defined.

(** C1, as stated, fails: the batch of [veto_learner] is processed to the
    end, its [after_backward] dispatch returns false, and [on_batch_end] is
    not among the calls. *)
Lemma on_batch_end_not_always :
  Learner.learn_one_iter Learner.veto_learner 1%Z 2%Z ((), [])
  = (Ok (), ((), [Learner.EvOnBatchBegin; Learner.EvComputeLoss; Learner.EvAfterLosses;
                  Learner.EvOnBackwardBegin true; Learner.EvBackward;
                  Learner.EvAfterBackward false])) ∧
  ∀ logs, Learner.EvOnBatchEnd logs ∉ Learner.calls Learner.veto_learner 1%Z 2%Z ().
Proof.
  split; [by vm_compute|].
  intros logs H. vm_compute in H.
  repeat (apply elem_of_cons in H as [H|H]; [discriminate H|]).
  by apply elem_of_nil in H.
Qed.

Example get_all_pairs_001 :
  Selector.get_all_pairs [0; 0; 1]%Z = Ok ([(0, 1)], [(0, 2); (1, 2)]).
Proof. reflexivity. Qed.

Example batch_hard_example :
  Selector.get_batch_hard_triplets Z.leb Selector.example_dist [0; 0; 0; 1; 1]%Z
  = Ok [(0, 2, 3); (1, 2, 3); (2, 0, 4); (3, 4, 0); (4, 3, 2)].
Proof. reflexivity. Qed.

(** * Further properties *)

(** ** selector.py: counting the pairs *)

Lemma length_combinations2 (n : nat) :
  2 * length (Selector.combinations2 n) = n * (n - 1).
Proof.
  unfold Selector.combinations2.
  assert (Hgen : ∀ m k (f : nat → list Selector.pair),
    (∀ i, k ≤ i < k + m → length (f i) = k + m - S i) →
    2 * length (seq k m ≫= f) = m * (m - 1)).
  { induction m as [|m IH]; intros k f Hf; [done|].
    cbn [seq]. rewrite bind_cons, length_app, (Hf k) by lia.
    specialize (IH (S k) f). rewrite Nat.mul_add_distr_l, IH; [nia|].
    intros i Hi. rewrite Hf by lia. lia. }
  apply (Hgen n 0). intros i Hi. by rewrite length_fmap, length_seq.
Qed.

(** X1: [get_all_pairs] raises IndexError exactly on batches of fewer than
    two rows; otherwise it returns, and the positive and negative pairs
    together number N(N-1)/2. *)
Theorem get_all_pairs_count (labels : list Z) :
  match Selector.get_all_pairs labels with
  | Ok (pos, neg) =>
      2 ≤ length labels ∧
      2 * (length pos + length neg) = length labels * (length labels - 1)
  | Raise e => length labels < 2 ∧ e = IndexError
  end.
Proof.
  destruct (decide (length labels < 2)) as [Hn|Hn].
  - by rewrite get_all_pairs_small.
  - rewrite get_all_pairs_Ok by lia. split; [lia|].
    rewrite <- length_app, filter_split_Permutation.
    unfold Selector.astype_uint8. rewrite length_fmap. apply length_combinations2.
Qed.

(** ** selector.py: all triplets

    X2: on a batch of 2 to 256 rows [get_all_triplets] returns exactly the
    triplets (a, p, n) with a < p, a < n, the labels of a and p equal and
    the labels of a and n different: every triplet is a valid one, and
    the positive and the negative always have a larger index than the
    anchor. *)
Theorem get_all_triplets_upto_256 (labels : list Z) :
  2 ≤ length labels ≤ 256 →
  ∃ ts, Selector.get_all_triplets labels = Ok ts ∧
    ∀ a p n, (a, p, n) ∈ ts ↔
      a < p < length labels ∧ a < n < length labels ∧
      labels !! a = labels !! p ∧ labels !! a ≠ labels !! n.
Proof.
  intros Hn. destruct (get_all_pairs_upto_256 labels Hn) as (pos & neg & Hp & Hpos & Hneg).
  destruct (get_all_triplets_Ok labels pos neg Hp) as (ts & Hts & Hin).
  exists ts. split; [done|]. intros a p n. rewrite Hin, Hpos, Hneg. tauto.
Qed.

Lemma get_all_triplets_upto_256_witness :
  ∃ ts, Selector.get_all_triplets [0; 0; 1; 1]%Z = Ok ts ∧
    ∀ a p n, (a, p, n) ∈ ts ↔
      a < p < 4 ∧ a < n < 4 ∧
      [0; 0; 1; 1]%Z !! a = [0; 0; 1; 1]%Z !! p ∧ [0; 0; 1; 1]%Z !! a ≠ [0; 0; 1; 1]%Z !! n.
Proof. apply (get_all_triplets_upto_256 [0; 0; 1; 1]%Z). cbn. lia. Defined.

Section TripletSelect.
Import Selector TripletSelectors.
Context {E : Type}.

Lemma triplet_select_gathers_gen `{!TripletSelector E} (embeddings : list E) (labels : list Z)
      (ts : list triplet) :
  get_triplets embeddings labels = Ok ts → ts ≠ [] →
  (∀ t, t ∈ ts → t.1.1 < length embeddings ∧ t.1.2 < length embeddings ∧
                 t.2 < length embeddings) →
  ∃ anchors pos negs,
    select embeddings labels = Ok (anchors, pos, negs) ∧
    Forall2 (λ t e, embeddings !! t.1.1 = Some e) ts anchors ∧
    Forall2 (λ t e, embeddings !! t.1.2 = Some e) ts pos ∧
    Forall2 (λ t e, embeddings !! t.2 = Some e) ts negs.
Proof.
  intros Hts Hne Hin.
  assert (Hcol : ∀ proj : triplet → nat, (∀ t, t ∈ ts → proj t < length embeddings) →
            ∃ rows, index_select embeddings (proj <$> ts) = Ok rows ∧
                    Forall2 (λ t e, embeddings !! proj t = Some e) ts rows).
  { intros proj Hproj. destruct (index_select_Ok embeddings (proj <$> ts)) as (rows & Hr & Hall).
    { intros i (t & -> & Ht)%list_elem_of_fmap. by apply Hproj. }
    exists rows. split; [done|]. by apply Forall2_fmap_l in Hall. }
  destruct (Hcol (λ t, t.1.1)) as (anchors & Ha & Fa); [intros; by apply Hin|].
  destruct (Hcol (λ t, t.1.2)) as (pos & Hp & Fp); [intros; by apply Hin|].
  destruct (Hcol (λ t, t.2)) as (negs & Hn & Fn); [intros; by apply Hin|].
  exists anchors, pos, negs. split; [|done].
  unfold select. rewrite Hts, bind_Ok.
  rewrite !column_nonempty by done.
  rewrite bind_Ok, Ha, bind_Ok, bind_Ok, Hp, bind_Ok, bind_Ok, Hn. done.
Qed.

Lemma triplet_select_empty `{!TripletSelector E} (embeddings : list E) (labels : list Z) :
  get_triplets embeddings labels = Ok [] → select embeddings labels = Raise IndexError.
Proof. intros Hts. unfold select. by rewrite Hts. Qed.

End TripletSelect.

Lemma traverse_Permutation {A B : Type} (f : A → result B) (xs xs' : list A) (ys : list B) :
  xs ≡ₚ xs' → traverse f xs = Ok ys → ∃ ys', traverse f xs' = Ok ys' ∧ ys ≡ₚ ys'.
Proof.
  intros Hperm. revert ys. induction Hperm as [|x xs xs' _ IH|x y xs|xs xs' xs'' _ IH1 _ IH2];
    intros ys.
  - intros [= <-]. by exists [].
  - cbn. destruct (f x) as [b|e]; [|done]. rewrite !bind_Ok.
    destruct (traverse f xs) as [bs|e]; [|done]. rewrite bind_Ok. intros [= <-].
    destruct (IH bs eq_refl) as (bs' & -> & Hbs). exists (b :: bs'). by rewrite Hbs.
  - cbn. destruct (f y) as [b|e]; [|done]. destruct (f x) as [b'|e]; [|done].
    rewrite !bind_Ok. destruct (traverse f xs) as [bs|e]; [|done]. rewrite !bind_Ok.
    intros [= <-]. exists (b' :: b :: bs). split; [done|]. apply perm_swap.
  - intros Hys. destruct (IH1 ys Hys) as (ys' & Hys' & Hp1).
    destruct (IH2 ys' Hys') as (ys'' & Hys'' & Hp2).
    exists ys''. split; [done|]. by rewrite Hp1.
Qed.

Lemma List_concat_Permutation {A : Type} (ls ls' : list (list A)) :
  ls ≡ₚ ls' → List.concat ls ≡ₚ List.concat ls'.
Proof.
  induction 1 as [|l ls ls' _ IH|l1 l2 ls|ls ls' ls'' _ IH1 _ IH2]; cbn.
  - done.
  - by rewrite IH.
  - by rewrite !app_assoc, (Permutation_app_comm l2 l1).
  - by rewrite IH1.
Qed.

Section BatchHardMore.
Import Selector.
Context {D : Type} (dle : D → D → bool).
Hypothesis dle_total : ∀ x y, dle x y = true ∨ dle y x = true.
Hypothesis dle_trans : ∀ x y z, dle x y = true → dle y z = true → dle x z = true.
Variable dist_mat : nat → nat → D.

Lemma batch_hard_over_total (classes labels : list Z) :
  ∃ ts, batch_hard_over dle classes dist_mat labels = Ok ts.
Proof.
  destruct (traverse_Ok_Forall2 (class_triplets dle dist_mat labels) (λ _ _, True) classes)
    as (per_class & Hper & _).
  { intros c _. destruct (class_triplets_Ok dle dle_total dle_trans dist_mat labels c)
      as (ts & Hts & _). by exists ts. }
  exists (List.concat per_class). unfold batch_hard_over. by rewrite Hper.
Qed.

Lemma batch_hard_over_member (classes labels : list Z) (ts : list triplet) (t : triplet) :
  batch_hard_over dle classes dist_mat labels = Ok ts → t ∈ ts →
  ∃ c, c ∈ classes ∧
       hardest_of dle dist_mat (where_eq labels c) (where_ne labels c) (anchor t) t.
Proof.
  unfold batch_hard_over.
  destruct (traverse _ classes) as [per_class|e] eqn:Hper; [|done].
  rewrite bind_Ok. intros [= <-] Ht.
  apply list_elem_of_In, in_concat in Ht as (tsc & Htsc & Ht).
  apply list_elem_of_In, list_elem_of_lookup_1 in Htsc as [k Hk].
  apply list_elem_of_In, list_elem_of_lookup_1 in Ht as [j Hj].
  apply traverse_Forall2 in Hper.
  destruct (Forall2_lookup_r _ _ _ _ _ Hper Hk) as (c & Hc & Hcls).
  exists c. split; [by eapply list_elem_of_lookup_2|].
  destruct (class_triplets_Ok dle dle_total dle_trans dist_mat labels c)
    as (ts' & Hts' & Hcase).
  rewrite Hcls in Hts'. injection Hts' as <-.
  destruct Hcase as [[_ Hall]|[_ ->]]; [|done].
  destruct (Forall2_lookup_r _ _ _ _ _ Hall Hj) as (an & Han & Hof).
  by rewrite (hardest_of_anchor _ _ _ _ _ _ Hof).
Qed.

End BatchHardMore.

(** X6: in whatever order the set of classes is iterated (any duplicate-free
    list of the labels that occur), the batch-hard loop returns the same
    triplets up to their order. *)
Theorem batch_hard_any_class_order {D : Type} (dle : D → D → bool)
        (dist_mat : nat → nat → D) (labels classes : list Z) :
  (∀ x y, dle x y = true ∨ dle y x = true) →
  (∀ x y z, dle x y = true → dle y z = true → dle x z = true) →
  NoDup classes → (∀ c, c ∈ classes ↔ c ∈ labels) →
  ∃ ts ts', Selector.batch_hard_over dle classes dist_mat labels = Ok ts ∧
            Selector.get_batch_hard_triplets dle dist_mat labels = Ok ts' ∧
            ts ≡ₚ ts'.
Proof.
  intros Htotal Htrans Hnd Hin.
  assert (Hperm : remove_dups labels ≡ₚ classes).
  { apply NoDup_Permutation; [apply NoDup_remove_dups|done|].
    intros c. by rewrite elem_of_remove_dups, Hin. }
  destruct (batch_hard_over_total dle Htotal Htrans dist_mat (remove_dups labels) labels)
    as (ts' & Hts').
  unfold Selector.get_batch_hard_triplets. rewrite Hts'.
  unfold Selector.batch_hard_over in *.
  destruct (traverse _ (remove_dups labels)) as [per_class|e] eqn:Hper; [|done].
  rewrite bind_Ok in Hts'. injection Hts' as <-.
  destruct (traverse_Permutation _ _ _ _ Hperm Hper) as (per_class' & -> & Hpc).
  eexists _, _. split; [done|]. split; [done|].
  symmetry. by apply List_concat_Permutation.
Qed.

Lemma batch_hard_any_class_order_witness :
  ∃ ts ts', Selector.batch_hard_over Z.leb [1; 0]%Z Selector.example_dist [0; 0; 0; 1; 1]%Z
              = Ok ts ∧
            Selector.get_batch_hard_triplets Z.leb Selector.example_dist [0; 0; 0; 1; 1]%Z
              = Ok ts' ∧
            ts ≡ₚ ts'.
Proof.
  apply (batch_hard_any_class_order Z.leb Selector.example_dist [0; 0; 0; 1; 1]%Z [1; 0]%Z).
  - intros x y. rewrite !Z.leb_le. lia.
  - intros x y z. rewrite !Z.leb_le. lia.
  - apply NoDup_cons. split; [|apply NoDup_singleton].
    by intros [=]%list_elem_of_singleton.
  - intros c. rewrite !elem_of_cons, !elem_of_nil. intuition lia.
Defined.

(** ** selector.py: gathering the triplets

    X3: when [get_triplets] returns triplets whose indices are rows of the
    embeddings, [TripletSelector.select] raises IndexError if there is no
    triplet, and otherwise returns the rows at the anchors, at the
    positives and at the negatives, in the order of the triplets. *)
Theorem triplet_select_gathers {E : Type} `{!TripletSelectors.TripletSelector E}
        (embeddings : list E) (labels : list Z) (ts : list Selector.triplet) :
  TripletSelectors.get_triplets embeddings labels = Ok ts →
  (∀ t, t ∈ ts → t.1.1 < length embeddings ∧ t.1.2 < length embeddings ∧
                 t.2 < length embeddings) →
  match ts with
  | [] => TripletSelectors.select embeddings labels = Raise IndexError
  | _ =>
      ∃ anchors pos negs,
        TripletSelectors.select embeddings labels = Ok (anchors, pos, negs) ∧
        Forall2 (λ t e, embeddings !! t.1.1 = Some e) ts anchors ∧
        Forall2 (λ t e, embeddings !! t.1.2 = Some e) ts pos ∧
        Forall2 (λ t e, embeddings !! t.2 = Some e) ts negs
  end.
Proof.
  intros Hts Hin. destruct ts as [|t ts].
  - by apply triplet_select_empty.
  - by apply triplet_select_gathers_gen.
Qed.

Lemma triplet_select_gathers_witness :
  ∃ anchors pos negs,
    TripletSelectors.select (H := TripletSelectors.AllTripletSelector Z)
      [10; 20; 30; 40]%Z [0; 0; 1; 1]%Z = Ok (anchors, pos, negs) ∧
    Forall2 (λ t e, [10; 20; 30; 40]%Z !! t.1.1 = Some e) [(0, 1, 2); (0, 1, 3)] anchors ∧
    Forall2 (λ t e, [10; 20; 30; 40]%Z !! t.1.2 = Some e) [(0, 1, 2); (0, 1, 3)] pos ∧
    Forall2 (λ t e, [10; 20; 30; 40]%Z !! t.2 = Some e) [(0, 1, 2); (0, 1, 3)] negs.
Proof.
  apply (triplet_select_gathers (H := TripletSelectors.AllTripletSelector Z)
           [10; 20; 30; 40]%Z [0; 0; 1; 1]%Z [(0, 1, 2); (0, 1, 3)]).
  - reflexivity.
  - intros t Ht. repeat (apply elem_of_cons in Ht as [->|Ht]; [cbn; lia|]).
    by apply elem_of_nil in Ht.
Defined.

(** X4: on a batch with a single label, or with at most 256 labels that are
    all distinct, [select] of the batch-hard selector and of the
    all-triplet selector raises IndexError: no triplet is mined, and the
    empty array has no column to slice. *)
Theorem triplet_select_degenerate {E D : Type} (dle : D → D → bool)
        (emb_pairwise_dist : list E → nat → nat → D)
        (embeddings : list E) (labels : list Z) :
  (∀ i j ci cj, labels !! i = Some ci → labels !! j = Some cj → ci = cj) ∨
  (NoDup labels ∧ length labels ≤ 256) →
  TripletSelectors.select
    (H := TripletSelectors.BatchHardTripletSelector dle emb_pairwise_dist)
    embeddings labels = Raise IndexError ∧
  TripletSelectors.select (H := TripletSelectors.AllTripletSelector E)
    embeddings labels = Raise IndexError.
Proof.
  intros Hdeg. split.
  - apply triplet_select_empty. unfold TripletSelectors.get_triplets,
      TripletSelectors.BatchHardTripletSelector.
    apply get_batch_hard_triplets_degenerate. tauto.
  - destruct (decide (length labels < 2)) as [Hsmall|Hbig].
    + unfold TripletSelectors.select, TripletSelectors.get_triplets,
        TripletSelectors.AllTripletSelector, Selector.get_all_triplets.
      by rewrite get_all_pairs_small.
    + apply triplet_select_empty. unfold TripletSelectors.get_triplets,
        TripletSelectors.AllTripletSelector.
      destruct Hdeg as [Hsame|[Hnd Hle]].
      * apply get_all_triplets_single_label; [lia|done].
      * apply get_all_triplets_distinct_labels; [lia|done].
Qed.

Lemma triplet_select_degenerate_witness :
  TripletSelectors.select
    (H := TripletSelectors.BatchHardTripletSelector Z.leb (λ _, Selector.example_dist))
    [10; 20; 30]%Z [3; 3; 3]%Z = Raise IndexError ∧
  TripletSelectors.select (H := TripletSelectors.AllTripletSelector Z)
    [10; 20; 30]%Z [3; 3; 3]%Z = Raise IndexError.
Proof.
  apply (triplet_select_degenerate Z.leb (λ _, Selector.example_dist)
           [10; 20; 30]%Z [3; 3; 3]%Z).
  left.
  assert (H3 : ∀ i c, [3; 3; 3]%Z !! i = Some c → c = 3%Z).
  { intros i c Hi%list_elem_of_lookup_2.
    repeat (apply elem_of_cons in Hi as [->|Hi]; [done|]). by apply elem_of_nil in Hi. }
  intros i j ci cj Hi Hj. by rewrite (H3 _ _ Hi), (H3 _ _ Hj).
Defined.

(** X5: on a batch with one embedding per label, in which some class has
    two members and some row has another label, the batch-hard selector
    mines at least one triplet and [select] returns the gathered rows. *)
Theorem batch_hard_select_gathers {E D : Type} (dle : D → D → bool)
        (emb_pairwise_dist : list E → nat → nat → D)
        (embeddings : list E) (labels : list Z) :
  (∀ x y, dle x y = true ∨ dle y x = true) →
  (∀ x y z, dle x y = true → dle y z = true → dle x z = true) →
  length embeddings = length labels →
  (∃ a a' m c c', a' ≠ a ∧ labels !! a = Some c ∧ labels !! a' = Some c ∧
                  labels !! m = Some c' ∧ c' ≠ c) →
  ∃ ts anchors pos negs,
    Selector.get_batch_hard_triplets dle (emb_pairwise_dist embeddings) labels = Ok ts ∧
    ts ≠ [] ∧
    TripletSelectors.select
      (H := TripletSelectors.BatchHardTripletSelector dle emb_pairwise_dist)
      embeddings labels = Ok (anchors, pos, negs) ∧
    Forall2 (λ t e, embeddings !! t.1.1 = Some e) ts anchors ∧
    Forall2 (λ t e, embeddings !! t.1.2 = Some e) ts pos ∧
    Forall2 (λ t e, embeddings !! t.2 = Some e) ts negs.
Proof.
  intros Htotal Htrans Hlen (a & a' & m & c & c' & Hne & Ha & Ha' & Hm & Hc').
  destruct (batch_hard_over_spec dle Htotal Htrans (emb_pairwise_dist embeddings)
              (remove_dups labels) labels) as (ts & Hts & Hspec).
  { apply NoDup_remove_dups. }
  { intros x. apply elem_of_remove_dups. }
  assert (Hnonempty : ts ≠ []).
  { destruct (Hspec a c Ha) as [Hone _].
    destruct Hone as (p & n & Hf & _); [by exists a'|by exists m, c'|].
    intros ->. done. }
  assert (Hrange : ∀ t, t ∈ ts → t.1.1 < length embeddings ∧ t.1.2 < length embeddings ∧
                                  t.2 < length embeddings).
  { intros t Ht. rewrite Hlen.
    destruct (batch_hard_over_member dle Htotal Htrans _ _ _ _ _ Hts Ht)
      as (k & _ & p & n & -> & Hp & _ & Hn & _).
    destruct (batch_hard_over_anchor dle Htotal Htrans _ _ _ _ _ Hts Ht) as (k' & _ & Hk').
    apply elem_of_where_eq, lookup_lt_Some in Hp.
    apply elem_of_where_ne in Hn as (cn & Hn%lookup_lt_Some & _).
    apply lookup_lt_Some in Hk'. done. }
  destruct (triplet_select_gathers_gen
              (TripletSelector0 := TripletSelectors.BatchHardTripletSelector dle emb_pairwise_dist)
              embeddings labels ts Hts Hnonempty Hrange)
    as (anchors & pos & negs & Hsel & Hfa & Hfp & Hfn).
  by exists ts, anchors, pos, negs.
Qed.

Lemma batch_hard_select_gathers_witness :
  ∃ ts anchors pos negs,
    Selector.get_batch_hard_triplets Z.leb Selector.example_dist [0; 0; 0; 1; 1]%Z = Ok ts ∧
    ts ≠ [] ∧
    TripletSelectors.select
      (H := TripletSelectors.BatchHardTripletSelector Z.leb (λ _, Selector.example_dist))
      [10; 20; 30; 40; 50]%Z [0; 0; 0; 1; 1]%Z = Ok (anchors, pos, negs) ∧
    Forall2 (λ t e, [10; 20; 30; 40; 50]%Z !! t.1.1 = Some e) ts anchors ∧
    Forall2 (λ t e, [10; 20; 30; 40; 50]%Z !! t.1.2 = Some e) ts pos ∧
    Forall2 (λ t e, [10; 20; 30; 40; 50]%Z !! t.2 = Some e) ts negs.
Proof.
  apply (batch_hard_select_gathers Z.leb (λ _, Selector.example_dist)
           [10; 20; 30; 40; 50]%Z [0; 0; 0; 1; 1]%Z).
  - intros x y. rewrite !Z.leb_le. lia.
  - intros x y z. rewrite !Z.leb_le. lia.
  - reflexivity.
  - exists 0, 1, 3, 0%Z, 1%Z. done.
Defined.

Lemma pair_select_lengths {E : Type} `{!Selector.PairSelector E}
      (embeddings : list E) (labels : list Z) (pos neg : list Selector.pair) :
  Selector.get_pairs embeddings labels = Ok (pos, neg) →
  (∀ p, p ∈ pos ++ neg → p.1 < length embeddings ∧ p.2 < length embeddings) →
  ∃ first second sim,
    Selector.select Selector.CPU embeddings labels = Ok ((first, second), sim) ∧
    length first = length pos + length neg ∧
    length second = length pos + length neg ∧
    length sim = length pos + length neg.
Proof.
  intros Hp Hin.
  destruct (select_cpu_positives_then_negatives embeddings labels pos neg Hp Hin)
    as (first & second & sim & Hsel & Hf & Hs & ->).
  exists first, second, (replicate (length pos) 1%Z ++ replicate (length neg) 0%Z).
  split; [done|].
  apply Forall2_length in Hf, Hs. rewrite length_app in Hf, Hs.
  by rewrite length_app, !length_replicate.
Qed.

(** X7: on a batch with one embedding per label, [select] of the all-pair
    selector raises IndexError for fewer than two rows; for two rows or
    more it returns on CPU embeddings, with N(N-1)/2 rows in each of the
    two gathered tensors and as many similarity labels (also above 256
    rows, where the cast indices still are rows of the batch), and raises
    RuntimeError on CUDA embeddings. *)
Theorem all_pair_select_total {E : Type} (d : Selector.device) (embeddings : list E)
        (labels : list Z) :
  length embeddings = length labels →
  match Selector.select (H := Selector.AllPairSelector E) d embeddings labels with
  | Ok ((first, second), sim) =>
      d = Selector.CPU ∧
      2 ≤ length labels ∧
      length first = length sim ∧ length second = length sim ∧
      2 * length sim = length labels * (length labels - 1)
  | Raise e =>
      length labels < 2 ∧ e = IndexError ∨
      2 ≤ length labels ∧ d = Selector.CUDA ∧ e = RuntimeError
  end.
Proof.
  intros Hlen. destruct (decide (length labels < 2)) as [Hn|Hn].
  - unfold Selector.select, Selector.get_pairs, Selector.AllPairSelector.
    rewrite get_all_pairs_small by done. by left.
  - pose proof (get_all_pairs_Ok labels ltac:(lia)) as Hp.
    assert (Hcount : 2 * (length (List.filter (Selector.same_label labels)
                           (Selector.astype_uint8 (Selector.combinations2 (length labels))))
                    + length (List.filter (λ p, negb (Selector.same_label labels p))
                           (Selector.astype_uint8 (Selector.combinations2 (length labels)))))
                     = length labels * (length labels - 1)).
    { rewrite <- length_app, filter_split_Permutation.
      unfold Selector.astype_uint8. rewrite length_fmap. apply length_combinations2. }
    assert (Hrange : ∀ p,
      p ∈ List.filter (Selector.same_label labels)
            (Selector.astype_uint8 (Selector.combinations2 (length labels))) ++
          List.filter (λ p, negb (Selector.same_label labels p))
            (Selector.astype_uint8 (Selector.combinations2 (length labels))) →
      p.1 < length embeddings ∧ p.2 < length embeddings).
    { intros p. rewrite filter_split_Permutation.
      intros (q & -> & Hq%combinations2_lt)%list_elem_of_fmap. rewrite Hlen. cbn.
      split; apply uint8_in_range; lia. }
    destruct d.
    + destruct (pair_select_lengths (H := Selector.AllPairSelector E) embeddings labels _ _
                  Hp Hrange) as (first & second & sim & -> & Hf & Hs & Hl).
      split; [done|]. lia.
    + rewrite (select_cuda_raises (H := Selector.AllPairSelector E) embeddings labels _ _ Hp).
      * right. split; [lia|done].
      * intros p Hp'. apply Hrange, elem_of_app. by left.
Qed.

Lemma all_pair_select_total_witness :
  match Selector.select (H := Selector.AllPairSelector Z) Selector.CPU
          [10; 20; 30]%Z [0; 0; 1]%Z with
  | Ok ((first, second), sim) =>
      Selector.CPU = Selector.CPU ∧
      2 ≤ length [0; 0; 1]%Z ∧
      length first = length sim ∧ length second = length sim ∧
      2 * length sim = length [0; 0; 1]%Z * (length [0; 0; 1]%Z - 1)
  | Raise e =>
      length [0; 0; 1]%Z < 2 ∧ e = IndexError ∨
      2 ≤ length [0; 0; 1]%Z ∧ Selector.CPU = Selector.CUDA ∧ e = RuntimeError
  end.
Proof.
  apply (all_pair_select_total Selector.CPU [10; 20; 30]%Z [0; 0; 1]%Z). reflexivity.
Defined.

(** ** swa.py: errors and the update schedule

    X8: a hook raises only when the callback is configured for the hook's
    timescale, and then in exactly three cases: KeyError when the logs lack
    the counter; ZeroDivisionError when the counter has reached
    [average_after] and [update_every] is 0 (below [average_after] the
    modulo is not evaluated and nothing is raised); and RuntimeError from
    [load_state_dict], after the averaged parameters have been written, at
    an update point of a model whose state dict has other keys than its
    parameters. *)
Theorem swa_hook_errors {T : Type} (tadd : T → T → T) (tscale : Z → T → T)
        (tdiv : T → Z → T) (self : SWA.StochasticWeightAveraging (T := T))
        (logs : gmap string Z) (ts : SWA.timescale) (e : exn) :
  (SWA.hook_of tadd tscale tdiv ts self logs).1 = Raise e ↔
  SWA._timescale self = ts ∧
  (logs !! SWA.counter_of ts = None ∧ e = KeyError ∨
   ∃ counter, logs !! SWA.counter_of ts = Some counter ∧
              (SWA._average_after self ≤ counter)%Z ∧
              (SWA._update_every self = 0%Z ∧ e = ZeroDivisionError ∨
               SWA._update_every self ≠ 0%Z ∧
               (counter `mod` SWA._update_every self = 0)%Z ∧
               SWA.other_state_keys self ≠ [] ∧ e = RuntimeError)).
Proof.
  rewrite hook_of_update.
  pose proof (update_cases tadd tscale tdiv self (SWA.counter_of ts) logs) as Hupd.
  destruct (decide (SWA._timescale self = ts)) as [Hts|Hts].
  2:{ split; [done|tauto]. }
  destruct (logs !! SWA.counter_of ts) as [counter|].
  2:{ rewrite Hupd. split.
      - intros [= <-]. split; [done|]. by left.
      - intros [_ [[_ ->]|(c & ? & _)]]; done. }
  repeat case_decide; rewrite Hupd; cbn [fst].
  - split; [done|]. intros [_ [[? _]|(c & [= <-] & ? & _)]]; [done|lia].
  - split.
    + intros [= <-]. split; [done|]. right. exists counter.
      split_and!; [done|lia|]. by left.
    + intros [_ [[? _]|(c & _ & _ & [[_ ->]|[? _]])]]; done.
  - destruct (SWA.other_state_keys self) as [|k ks] eqn:Hkeys; split.
    + done.
    + intros [_ [[? _]|(c & _ & _ & [[? _]|(_ & _ & ? & _)])]]; done.
    + intros [= <-]. split; [done|]. right. exists counter.
      split_and!; [done|lia|]. right. split_and!; done.
    + intros [_ [[? _]|(c & _ & _ & [[? _]|(_ & _ & _ & ->)])]]; done.
  - split; [done|].
    intros [_ [[? _]|(c & [= <-] & _ & [[? _]|(_ & ? & _)])]]; done.
Qed.

Section UpdatePoints.
Import SWA.
Context {T : Type}.
Context (tadd : T → T → T) (tscale : Z → T → T) (tdiv : T → Z → T).


End UpdatePoints.



(** ** regularization.py: keys and composition

    X11: [after_losses] of [WeightRegularization] and of
    [ActivationRegularization] returns losses with the same keys as it
    received, and the activation callback keeps its loss name and lambda. *)
Theorem after_losses_keeps_keys {T P A : Type} (tadd tmul : T → T → T) (tzero : T)
        (wr : Regularization.WeightRegularization (T := T) (P := P))
        (ar : Regularization.ActivationRegularization (T := T) (A := A))
        (parameters : list P) (losses : gmap string T) (train : bool) :
  (∀ losses', Regularization.weight_after_losses tadd tmul tzero wr parameters losses train
                = Ok losses' → dom losses' = dom losses) ∧
  (∀ losses' ar', Regularization.activation_after_losses tadd tmul ar losses train
                    = Ok (losses', ar') →
                  dom losses' = dom losses ∧
                  Regularization.ar_loss_name ar' = Regularization.ar_loss_name ar ∧
                  Regularization.ar_lambd ar' = Regularization.ar_lambd ar).
Proof.
  unfold Regularization.weight_after_losses, Regularization.activation_after_losses.
  split.
  - intros losses'. destruct (losses !! _) as [l|] eqn:Hl; [|done]. intros [= <-].
    by apply dom_insert_lookup_L.
  - intros losses' ar'. destruct (losses !! _) as [l|] eqn:Hl; [|done]. intros [= <- <-].
    split; [|done]. by apply dom_insert_lookup_L.
Qed.

(** X12: two weight regularizers whose loss names are keys of the losses can
    be applied one after the other without failure.  On the same loss name
    the second term is added to the result of the first; on different loss
    names each entry gets its own term and the order of the two callbacks
    does not matter. *)
Theorem weight_regularizers_compose {T P : Type} (tadd tmul : T → T → T) (tzero : T)
        (wr1 wr2 : Regularization.WeightRegularization (T := T) (P := P))
        (parameters : list P) (losses : gmap string T) (train : bool) (l1 l2 : T) :
  losses !! Regularization.wr_loss_name wr1 = Some l1 →
  losses !! Regularization.wr_loss_name wr2 = Some l2 →
  let reg wr := foldl (λ reg p, tadd reg (Regularization.wr_regularizer wr p)) tzero parameters in
  let term wr := tmul (Regularization.wr_lambd wr) (reg wr) in
  let run wr losses := Regularization.weight_after_losses tadd tmul tzero wr parameters losses train in
  ∃ losses12, run wr1 losses ≫= run wr2 = Ok losses12 ∧
    if decide (Regularization.wr_loss_name wr1 = Regularization.wr_loss_name wr2)
    then losses12 = <[Regularization.wr_loss_name wr1 := tadd (tadd l1 (term wr1)) (term wr2)]> losses
    else losses12 = <[Regularization.wr_loss_name wr2 := tadd l2 (term wr2)]>
                      (<[Regularization.wr_loss_name wr1 := tadd l1 (term wr1)]> losses) ∧
         run wr2 losses ≫= run wr1 = Ok losses12.
Proof.
  intros H1 H2. cbv zeta. unfold Regularization.weight_after_losses.
  rewrite H1, H2, !bind_Ok.
  case_decide as Hname.
  - rewrite <- Hname, lookup_insert_eq. eexists. split; [done|].
    by rewrite insert_insert_eq.
  - rewrite lookup_insert_ne, H2 by done. eexists. split; [done|]. split; [done|].
    rewrite lookup_insert_ne, H1 by done. f_equal. by apply insert_insert_ne.
Qed.

Lemma weight_regularizers_compose_witness :
  let wr1 := {| Regularization.wr_loss_name := "loss";
                Regularization.wr_regularizer := λ p : Z, (p * p)%Z;
                Regularization.wr_lambd := 2%Z |} in
  let wr2 := {| Regularization.wr_loss_name := "aux";
                Regularization.wr_regularizer := λ p : Z, Z.abs p;
                Regularization.wr_lambd := 3%Z |} in
  let losses : gmap string Z := {[ "loss" := 10%Z; "aux" := 7%Z ]} in
  let reg wr := foldl (λ reg p, Z.add reg (Regularization.wr_regularizer wr p)) 0%Z [1; -2]%Z in
  let term wr := Z.mul (Regularization.wr_lambd wr) (reg wr) in
  let run wr losses :=
    Regularization.weight_after_losses Z.add Z.mul 0%Z wr [1; -2]%Z losses true in
  ∃ losses12, run wr1 losses ≫= run wr2 = Ok losses12 ∧
    if decide (Regularization.wr_loss_name wr1 = Regularization.wr_loss_name wr2)
    then losses12 = <[Regularization.wr_loss_name wr1 := Z.add (Z.add 10 (term wr1)) (term wr2)]> losses
    else losses12 = <[Regularization.wr_loss_name wr2 := Z.add 7 (term wr2)]>
                      (<[Regularization.wr_loss_name wr1 := Z.add 10 (term wr1)]> losses) ∧
         run wr2 losses ≫= run wr1 = Ok losses12.
Proof.
  intros wr1 wr2 losses.
  apply (weight_regularizers_compose Z.add Z.mul 0%Z wr1 wr2 [1; -2]%Z losses true 10%Z 7%Z);
    reflexivity.
Defined.

(** ** progress_bar.py

    X13: [on_batch_end] raises KeyError when the logs have no [iter_cnt] and
    ZeroDivisionError when they have one and the training data has no
    batch; otherwise it updates the batch bar to a value v with
    0 <= v < len(train_data) that differs from [iter_cnt] by a multiple of
    len(train_data) (also for a negative [iter_cnt]), and leaves the epoch
    bar alone. *)
Theorem progress_on_batch_end (self : ProgressBar.ProgressBarCB) (logs : gmap string Z) :
  match ProgressBar.on_batch_end self logs with
  | Ok self' =>
      ∃ iter_cnt v, logs !! "iter_cnt" = Some iter_cnt ∧
        ProgressBar.pb_value (ProgressBar.the_progress_bar self') = Some v ∧
        (0 ≤ v < Z.of_nat (ProgressBar._train_data self))%Z ∧
        (∃ q, iter_cnt = q * Z.of_nat (ProgressBar._train_data self) + v)%Z ∧
        ProgressBar.the_master_bar self' = ProgressBar.the_master_bar self ∧
        ProgressBar.pb_total (ProgressBar.the_progress_bar self')
          = ProgressBar.pb_total (ProgressBar.the_progress_bar self)
  | Raise e =>
      logs !! "iter_cnt" = None ∧ e = KeyError ∨
      is_Some (logs !! "iter_cnt") ∧ ProgressBar._train_data self = 0 ∧ e = ZeroDivisionError
  end.
Proof.
  unfold ProgressBar.on_batch_end. destruct (logs !! "iter_cnt") as [iter_cnt|]; [|by left].
  destruct (Z.eqb_spec (Z.of_nat (ProgressBar._train_data self)) 0) as [Hz|Hnz].
  - right. split; [done|]. split; [lia|done].
  - exists iter_cnt, (iter_cnt `mod` Z.of_nat (ProgressBar._train_data self))%Z.
    cbn. split_and!; try done.
    + apply Z.mod_pos_bound. lia.
    + apply Z.mod_pos_bound. lia.
    + exists (iter_cnt `div` Z.of_nat (ProgressBar._train_data self))%Z.
      rewrite Z.mul_comm. by apply Z.div_mod.
Qed.

(** ** supervised.py: compute_loss

    X14: [compute_loss] hands the base method the learner with the
    criterion the mixup transformer made of it (the learner's own without
    mixup).  When the base method returns, the learner gets back the
    criterion it had before the call; when the base method raises, the
    assignment that restores it is not reached, and (the base method
    leaving the criterion alone) the learner keeps the transformed one. *)
Theorem compute_loss_restores_criterion {Tensor Criterion Rest : Type}
        (transform_loss : Criterion → bool → Criterion) (training : Rest → bool)
        (super_compute_loss :
           MixupLoss.learner (Criterion := Criterion) (Rest := Rest) → Tensor → Tensor → bool →
           result Tensor * MixupLoss.learner)
        (self : MixupLoss.learner) (images labels : Tensor) (train : bool) :
  (∀ s i l t, MixupLoss._criterion (super_compute_loss s i l t).2 = MixupLoss._criterion s) →
  let used := if MixupLoss._mixup self
              then transform_loss (MixupLoss._criterion self)
                                  (training (MixupLoss.rest self))
              else MixupLoss._criterion self in
  let out := MixupLoss.compute_loss transform_loss training super_compute_loss
               self images labels train in
  out.1 = (super_compute_loss (MixupLoss.set_criterion self used) images labels train).1 ∧
  match out.1 with
  | Ok _ => MixupLoss._criterion out.2 = MixupLoss._criterion self
  | Raise _ => MixupLoss._criterion out.2 = used
  end.
Proof.
  intros Hkeep. cbv zeta. unfold MixupLoss.compute_loss.
  assert (Hself : (if MixupLoss._mixup self
                   then MixupLoss.set_criterion self
                          (transform_loss (MixupLoss._criterion self)
                             (training (MixupLoss.rest self)))
                   else self)
                  = MixupLoss.set_criterion self
                      (if MixupLoss._mixup self
                       then transform_loss (MixupLoss._criterion self)
                              (training (MixupLoss.rest self))
                       else MixupLoss._criterion self)).
  { destruct self as [c [] r]; done. }
  rewrite Hself. clear Hself.
  set (self1 := MixupLoss.set_criterion self _).
  specialize (Hkeep self1 images labels train).
  destruct (super_compute_loss self1 images labels train) as [[ret|e] self2]; cbn in *.
  - done.
  - split; [done|]. by rewrite Hkeep.
Qed.

Lemma compute_loss_restores_criterion_witness :
  let used := if MixupLoss._mixup MixupLoss.example_learner
              then (λ (c : Z) (_ : bool), (c + 100)%Z)
                     (MixupLoss._criterion MixupLoss.example_learner)
                     ((λ _ : unit, true) (MixupLoss.rest MixupLoss.example_learner))
              else MixupLoss._criterion MixupLoss.example_learner in
  let out := MixupLoss.compute_loss (λ (c : Z) (_ : bool), (c + 100)%Z) (λ _ : unit, true)
               MixupLoss.example_super MixupLoss.example_learner (-5)%Z 2%Z true in
  out.1 = (MixupLoss.example_super (MixupLoss.set_criterion MixupLoss.example_learner used)
             (-5)%Z 2%Z true).1 ∧
  match out.1 with
  | Ok _ => MixupLoss._criterion out.2 = MixupLoss._criterion MixupLoss.example_learner
  | Raise _ => MixupLoss._criterion out.2 = used
  end.
Proof.
  apply (compute_loss_restores_criterion (λ (c : Z) (_ : bool), (c + 100)%Z) (λ _ : unit, true)
           MixupLoss.example_super MixupLoss.example_learner (-5)%Z 2%Z true).
  intros s i l t. unfold MixupLoss.example_super. by destruct (i <? 0)%Z.
Defined.

Example compute_loss_raise_example :
  MixupLoss.compute_loss (λ (c : Z) (_ : bool), (c + 100)%Z) (λ _ : unit, true)
    MixupLoss.example_super MixupLoss.example_learner (-5)%Z 2%Z true
  = (Raise RuntimeError, MixupLoss.set_criterion MixupLoss.example_learner 101%Z).
Proof. reflexivity. Qed.

Example compute_loss_ok_example :
  MixupLoss.compute_loss (λ (c : Z) (_ : bool), (c + 100)%Z) (λ _ : unit, true)
    MixupLoss.example_super MixupLoss.example_learner 5%Z 2%Z true
  = (Ok 108%Z, MixupLoss.example_learner).
Proof. reflexivity. Qed.

(** ** supervised.py: runs that raise *)

Section LearnOneIterRaises.
Import Learner.
Context {Tensor World : Type}.
Implicit Types (self : learner Tensor World) (w : World) (images labels : Tensor).

Lemma learn_one_iter_missing_loss self images labels w (tr : list (event Tensor))
      (data : gmap string Tensor) (w1 : World) (images1 labels1 images2 labels2 : Tensor)
      (w2 : World) (raw : Tensor) (w3 : World) (losses : gmap string Tensor) (w4 : World) :
  cb_on_batch_begin (_collab self) {[ "inputs" := images; "labels" := labels ]} true w
    = (data, w1) →
  data !! "inputs" = Some images1 →
  data !! "labels" = Some labels1 →
  (if _mixup self then transform_data (_collab self) images1 labels1 w1
   else ((images1, labels1), w1)) = ((images2, labels2), w2) →
  compute_loss (_collab self) images2 labels2 true w2 = (raw, w3) →
  cb_after_losses (_collab self) {[ "loss" := raw ]} true w3 = (losses, w4) →
  losses !! "loss" = None →
  learn_one_iter self images labels (w, tr)
  = (Raise KeyError, (w4, tr ++ calls_to_loss self)).
Proof.
  intros Hbegin Hinputs Hlabels Hmix Hraw Hlosses Hloss.
  unfold learn_one_iter, calls_to_loss.
  unfold pbind, call, exec, getitem, when, pret, praise.
  rewrite Hbegin, Hinputs, Hlabels.
  destruct (_mixup self); [rewrite Hmix|injection Hmix as <- <- <-];
    rewrite Hraw, Hlosses, Hloss; cbn; by rewrite <- !app_assoc.
Qed.

Lemma learn_one_iter_only_key_error self images labels w (tr : list (event Tensor)) (e : exn) :
  (learn_one_iter self images labels (w, tr)).1 = Raise e → e = KeyError.
Proof.
  unfold learn_one_iter, pbind, call, exec, getitem, when, pret, praise.
  destruct (cb_on_batch_begin _ _ _ _) as [data w1].
  destruct (data !! "inputs") as [images'|]; [|by intros [= <-]].
  destruct (data !! "labels") as [labels'|]; [|by intros [= <-]].
  destruct (_mixup self); [destruct (transform_data _ _ _ _) as [[images'' labels''] w2]|];
    destruct (compute_loss _ _ _ _ _) as [raw w3];
    destruct (cb_after_losses _ _ _ _) as [losses w4];
    (destruct (losses !! "loss") as [loss|]; [|by intros [= <-]]);
    destruct (cb_on_backward_begin _ _) as [[] w5]; cbn;
    destruct (cb_after_backward _ _) as [[] w6]; cbn; try done;
    destruct (cb_after_step _ _) as [[] w7]; cbn;
    destruct (_device self); cbn; done.
Qed.

Lemma learn_one_iter_missing_input self images labels w :
  let begun := cb_on_batch_begin (_collab self)
                 {[ "inputs" := images; "labels" := labels ]} true w in
  begun.1 !! "inputs" = None ∨ begun.1 !! "labels" = None →
  learn_one_iter self images labels (w, []) = (Raise KeyError, (begun.2, [EvOnBatchBegin])).
Proof.
  cbv zeta. unfold learn_one_iter, pbind, call, getitem, pret, praise.
  destruct (cb_on_batch_begin _ _ _ _) as [data w1]. cbn.
  intros [Hnone|Hnone].
  - by rewrite Hnone.
  - rewrite Hnone. by destruct (data !! "inputs").
Qed.

End LearnOneIterRaises.

(** X15: when the losses that the [after_losses] dispatch hands back lack
    the loss, [learn_one_iter] raises KeyError behind that dispatch: no
    gate is dispatched, nothing is backpropagated, and the world is as the
    dispatch left it.  No run of [learn_one_iter] raises anything but
    KeyError. *)
Theorem learn_one_iter_dropped_loss {Tensor World : Type}
        (self : Learner.learner Tensor World) (images labels : Tensor) (w : World)
        (data : gmap string Tensor) (w1 : World) (images1 labels1 images2 labels2 : Tensor)
        (w2 : World) (raw : Tensor) (w3 : World) (losses : gmap string Tensor) (w4 : World) :
  let c := Learner._collab self in
  Learner.cb_on_batch_begin c {[ "inputs" := images; "labels" := labels ]} true w
    = (data, w1) →
  data !! "inputs" = Some images1 →
  data !! "labels" = Some labels1 →
  (if Learner._mixup self then Learner.transform_data c images1 labels1 w1
   else ((images1, labels1), w1)) = ((images2, labels2), w2) →
  Learner.compute_loss c images2 labels2 true w2 = (raw, w3) →
  Learner.cb_after_losses c {[ "loss" := raw ]} true w3 = (losses, w4) →
  losses !! "loss" = None →
  Learner.learn_one_iter self images labels (w, [])
  = (Raise KeyError, (w4, Learner.calls_to_loss self)) ∧
  ∀ images' labels' w' e,
    (Learner.learn_one_iter self images' labels' (w', [])).1 = Raise e → e = KeyError.
Proof.
  intros c Hbegin Hinputs Hlabels Hmix Hraw Hlosses Hloss. split.
  - by rewrite (learn_one_iter_missing_loss self images labels w [] _ _ _ _ _ _ _ _ _ _ _
                  Hbegin Hinputs Hlabels Hmix Hraw Hlosses Hloss).
  - intros images' labels' w' e. apply learn_one_iter_only_key_error.
Qed.

Lemma learn_one_iter_dropped_loss_witness :
  Learner.learn_one_iter Learner.lossless_learner 1%Z 2%Z ([], [])
  = (Raise KeyError,
     ([("on_batch_begin", 0%Z); ("compute_loss", 3%Z); ("after_losses", 0%Z)],
      Learner.calls_to_loss Learner.lossless_learner)) ∧
  ∀ images' labels' w' e,
    (Learner.learn_one_iter Learner.lossless_learner images' labels' (w', [])).1 = Raise e →
    e = KeyError.
Proof.
  exact (learn_one_iter_dropped_loss Learner.lossless_learner 1%Z 2%Z []
           _ _ _ _ _ _ _ _ _ _ _
           eq_refl eq_refl eq_refl eq_refl eq_refl eq_refl eq_refl).
Defined.

(** X16: when the batch that the [on_batch_begin] dispatch returns lacks the
    inputs or the labels, [learn_one_iter] raises KeyError at once: the
    loss is not computed, no other call is made, and the world is as the
    dispatch left it. *)
Theorem learn_one_iter_dropped_key {Tensor World : Type} (self : Learner.learner Tensor World)
        (images labels : Tensor) (w : World) :
  let begun := Learner.cb_on_batch_begin (Learner._collab self)
                 {[ "inputs" := images; "labels" := labels ]} true w in
  begun.1 !! "inputs" = None ∨ begun.1 !! "labels" = None →
  Learner.learn_one_iter self images labels (w, [])
  = (Raise KeyError, (begun.2, [Learner.EvOnBatchBegin])).
Proof. apply learn_one_iter_missing_input. Qed.

Lemma learn_one_iter_dropped_key_witness :
  Learner.learn_one_iter LearnerMore.dropping_learner 1%Z 2%Z ((), [])
  = (Raise KeyError,
     ((Learner.cb_on_batch_begin (Learner._collab LearnerMore.dropping_learner)
         {[ "inputs" := 1%Z; "labels" := 2%Z ]} true ()).2,
      [Learner.EvOnBatchBegin])).
Proof.
  apply (learn_one_iter_dropped_key LearnerMore.dropping_learner 1%Z 2%Z ()).
  right. by vm_compute.
Defined.

Lemma list_getitem_in_range {A : Type} (l : list A) (i : Z) :
  (- Z.of_nat (length l) ≤ i < Z.of_nat (length l))%Z →
  ∃ x, LMScript.list_getitem l i = Ok x ∧
       l !! Z.to_nat (i `mod` Z.of_nat (length l)) = Some x.
Proof.
  intros Hi. unfold LMScript.list_getitem. cbv zeta.
  set (n := Z.of_nat (length l)) in *.
  assert (Hj : (i `mod` n = if (i <? 0)%Z then (i + n)%Z else i)%Z).
  { destruct (Z.ltb_spec i 0).
    - rewrite <- (Z.mod_add i 1 n) by lia. rewrite Z.mul_1_l. apply Z.mod_small. lia.
    - apply Z.mod_small. lia. }
  rewrite <- Hj.
  pose proof (Z.mod_pos_bound i n ltac:(lia)) as Hb.
  destruct (Z.ltb_spec (i `mod` n) 0); [lia|].
  destruct (Z.leb_spec n (i `mod` n)); [lia|]. cbn.
  destruct (lookup_lt_is_Some_2 l (Z.to_nat (i `mod` n))) as [x Hx]; [lia|].
  exists x. by rewrite Hx.
Qed.

Lemma list_getitem_out_of_range {A : Type} (l : list A) (i : Z) :
  ¬ (- Z.of_nat (length l) ≤ i < Z.of_nat (length l))%Z →
  LMScript.list_getitem l i = Raise IndexError.
Proof.
  intros Hi. unfold LMScript.list_getitem. cbv zeta.
  destruct (Z.ltb_spec i 0).
  - destruct (Z.ltb_spec (i + Z.of_nat (length l)) 0); [done|lia].
  - destruct (Z.ltb_spec i 0); [lia|].
    destruct (Z.leb_spec (Z.of_nat (length l)) i); [done|lia].
Qed.

(** ** test_lm.py

    X17: [id_to_text] returns one word per token, the word at the token's
    position in [itos], a token from -len(itos) to -1 counting from the
    end; it raises IndexError exactly when some token lies outside
    -len(itos) .. len(itos) - 1. *)
Theorem id_to_text_lookup (sequence : list Z) (itos : list string) :
  match LMScript.id_to_text sequence itos with
  | Ok ret =>
      length ret = length sequence ∧
      ∀ k token, sequence !! k = Some token →
        (- Z.of_nat (length itos) ≤ token < Z.of_nat (length itos))%Z ∧
        ret !! k = itos !! Z.to_nat (token `mod` Z.of_nat (length itos))
  | Raise e =>
      e = IndexError ∧
      ∃ token, token ∈ sequence ∧
               ¬ (- Z.of_nat (length itos) ≤ token < Z.of_nat (length itos))%Z
  end.
Proof.
  unfold LMScript.id_to_text. induction sequence as [|token sequence IH].
  - split; [done|]. intros k token. by rewrite lookup_nil.
  - cbn [traverse].
    destruct (decide (- Z.of_nat (length itos) ≤ token < Z.of_nat (length itos))%Z)
      as [Hin|Hout].
    + destruct (list_getitem_in_range itos token Hin) as (x & -> & Hx). rewrite bind_Ok.
      destruct (traverse _ sequence) as [ret|e]; cbn.
      * destruct IH as [Hlen Hall]. split; [by rewrite Hlen|].
        intros [|k] tok Hk; cbn in Hk.
        -- injection Hk as <-. done.
        -- by apply Hall.
      * destruct IH as [-> (tok & Htok & Hout)]. split; [done|].
        exists tok. split; [by right|done].
    + rewrite list_getitem_out_of_range by done. cbn. split; [done|].
      exists token. split; [by left|done].
Qed.

Example id_to_text_example :
  LMScript.id_to_text [0; 2; -1; -3]%Z ["the"; "cat"; "sat"]
  = Ok ["the"; "sat"; "sat"; "the"].
Proof. reflexivity. Qed.

Example id_to_text_out_of_range :
  LMScript.id_to_text [0; 3]%Z ["the"; "cat"; "sat"] = Raise IndexError.
Proof. reflexivity. Qed.
